(** * EntityTypoFixer: a shallow embedding of [addons/my_custom_components.py]

    The component is a plug-in of an NLU pipeline.  It holds a list of known
    entity values, rewrites the [value] of every entity record of a message to
    its closest known value, and keeps its list in a JSON side file.

    Python objects that the component mutates in place (entity records and
    their [processors] lists) live in a store of objects addressed by
    location; the methods are computations in a state-and-exception monad
    whose state survives a raised exception, as in Python. *)

From stdpp Require Import gmap strings list fin_maps pretty.
From Stdlib Require Import ZArith Lia Ascii String.

Local Open Scope string_scope.
Local Open Scope list_scope.
Local Open Scope Z_scope.

(** ** Python values and objects *)

(** Immutable values: [None], booleans, integers and text.  Floating-point
    numbers are not modelled. *)
Inductive scalar : Type :=
  | SNone
  | SBool (b : bool)
  | SInt (z : Z)
  | SStr (s : string).

Abbreviation loc := positive.

(** A value held in a variable, a dict entry or a list slot: a scalar or a
    reference to a mutable object. *)
Inductive val : Type :=
  | Sc (c : scalar)
  | Ref (l : loc).

Abbreviation VStr s := (Sc (SStr s)).

(** Mutable objects: a [list], or a [dict] with text keys. *)
Inductive obj : Type :=
  | OList (xs : list val)
  | ODict (d : gmap string val).

Abbreviation heap := (gmap positive obj).

#[global] Instance scalar_eq_dec : EqDecision scalar.
Proof. solve_decision. Defined.

#[global] Instance val_eq_dec : EqDecision val.
Proof. solve_decision. Defined.

(** Python's truth value of a scalar ([if x:] / [if not x:]). *)
Definition truthy (c : scalar) : bool :=
  match c with
  | SNone => false
  | SBool b => b
  | SInt z => negb (Z.eqb z 0)
  | SStr s => negb (String.eqb s "")
  end.

(** ** Exceptions and results

    [NoFuel] is not a Python exception: it marks a loop of the model stopped
    by its bound, which no run reaches ([fix_entity_typo_fuel]). *)

Inductive exn : Type :=
  | KeyError
  | AttributeError
  | TypeError
  | FileIOException
  | NoFuel.

Inductive result (A : Type) : Type :=
  | Ok (a : A)
  | Raise (e : exn).
Arguments Ok {A} a.
Arguments Raise {A} e.

(** ** The component instance

    [entities] is the canonical list ([self.entities]); [score_cutoff] holds
    whatever the configuration gave ([self.score_cutoff]). *)
Record EntityTypoFixer : Type := mkFixer {
  entities : list string;
  score_cutoff : scalar
}.

(** The class attribute [defaults = {"score_cutoff": 80}]. *)
Definition defaults : gmap string scalar := {[ "score_cutoff" := SInt 80 ]}.

(** ** The host and the libraries

    What the component calls and the repository does not define. *)
Class Host : Type := {
  (** the fuzzy-matching library's default scorer, applied after its default
      pre-processing of both strings; an integer similarity *)
  scorer : string -> string -> Z;
  (** Python's [str] of a list or dict object, which reads the store *)
  py_repr : gmap positive obj -> positive -> string;
  (** the [name] property the component inherits from the host base class *)
  component_name : string;
  (** the host constant [ENTITIES], the message property of entity records *)
  ENTITIES : string;
  (** [os.path.join] on two components *)
  path_join : string -> string -> string;
  (** the host's JSON writer, on a list of text *)
  json_dumps : list string -> string;
  (** the host's JSON reader; [None] when it raises.  Documents other than an
      array of text are outside the declared type of the canonical list. *)
  json_loads : string -> option (list string)
}.

(** ** State and the monad of methods

    [self] is the component instance the method runs on, [heap_of] the store
    of mutable objects reachable from the message, [fs] the regular files on
    disk by path.  Writing a file always succeeds: the host creates the model
    directory before it asks a component to persist. *)
Record State : Type := mkState {
  self : EntityTypoFixer;
  heap_of : gmap positive obj;
  fs : gmap string string
}.

(** A computation returns a value or raises; either way it leaves a state. *)
Definition M (A : Type) : Type := State -> result A * State.

Definition ret {A} (a : A) : M A := fun st => (Ok a, st).
Definition raise {A} (e : exn) : M A := fun st => (Raise e, st).
Definition bind {A B} (m : M A) (k : A -> M B) : M B :=
  fun st => match m st with
            | (Ok a, st') => k a st'
            | (Raise e, st') => (Raise e, st')
            end.

#[global] Instance M_ret : MRet M := @ret.
#[global] Instance M_bind : MBind M := fun A B k m => bind m k.

Definition get_self : M EntityTypoFixer := fun st => (Ok (self st), st).
Definition set_self (c : EntityTypoFixer) : M unit :=
  fun st => (Ok tt, mkState c (heap_of st) (fs st)).
Definition get_heap : M (gmap positive obj) := fun st => (Ok (heap_of st), st).
Definition set_heap (h : gmap positive obj) : M unit :=
  fun st => (Ok tt, mkState (self st) h (fs st)).
Definition get_fs : M (gmap string string) := fun st => (Ok (fs st), st).
Definition set_fs (f : gmap string string) : M unit :=
  fun st => (Ok tt, mkState (self st) (heap_of st) f).

(** Lift a pure result into the monad. *)
Definition lift {A} (r : result A) : M A := fun st => (r, st).

(** ** The fuzzy-matching routine *)

Section Matching.
Context `{Host}.

(** Python's [score >= score_cutoff] for an integer score: integers and
    booleans compare as numbers, [None] and text raise [TypeError]. *)
Definition score_ge (s : Z) (cutoff : scalar) : result bool :=
  match cutoff with
  | SInt c => Ok (c <=? s)
  | SBool b => Ok (Z.b2z b <=? s)
  | SNone | SStr _ => Raise TypeError
  end.

(** Modelled from the spec: [extractWithoutOrder] of the fuzzy-matching
    library, which is not part of the sources.  It scores the query against
    every choice in list order and keeps the pairs (choice, score) whose
    score is at or above the cutoff (spec 4.1, steps 2 and 3). *)
Fixpoint extractWithoutOrder (query : string) (choices : list string)
    (cutoff : scalar) : result (list (string * Z)) :=
  match choices with
  | [] => Ok []
  | choice :: rest =>
      let score := scorer query choice in
      match score_ge score cutoff with
      | Raise e => Raise e
      | Ok keep =>
          match extractWithoutOrder query rest cutoff with
          | Raise e => Raise e
          | Ok l => Ok (if keep then (choice, score) :: l else l)
          end
      end
  end.

(** One step of Python's [max]: the running maximum is replaced only by an
    item of strictly greater key. *)
Definition pick (best y : string * Z) : string * Z :=
  if best.2 <? y.2 then y else best.

(** Python's [max(items, key=lambda i: i[1])]: the first item of greatest
    score, [None] here where Python raises [ValueError] on no item. *)
Definition max_by_score (items : list (string * Z)) : option (string * Z) :=
  match items with
  | [] => None
  | x :: xs => Some (fold_left pick xs x)
  end.

(** The test [score >= cutoff] on a scored item, for an integer cutoff. *)
Definition at_least (c : Z) (p : string * Z) : bool := c <=? p.2.

(** Modelled from the spec: [process.extractOne] of the fuzzy-matching
    library, which is not part of the sources: the highest-scoring choice
    among those at or above the cutoff, the first one on a tie, [None] when
    there is none (spec 4.1, steps 2 and 3, and the tie-break policy). *)
Definition extractOne (query : string) (choices : list string)
    (cutoff : scalar) : result (option (string * Z)) :=
  match extractWithoutOrder query choices cutoff with
  | Raise e => Raise e
  | Ok items => Ok (max_by_score items)
  end.

(** The best match in the words of the spec: the highest-scoring string of
    the whole list, the first one on a tie, whatever the cutoff. *)
Definition best_match (v : string) (L : list string) : option (string * Z) :=
  max_by_score (map (fun m => (m, scorer v m)) L).

End Matching.

(** ** Host objects that the component reads *)

(** The training corpus: [entity_synonyms] is a dict, so its keys are
    distinct; it is kept as an association list since the order of the keys
    matters. *)
Record TrainingData : Type := mkTrainingData {
  entity_synonyms : list (string * string)
}.

(** The host message: [data] behind [get]/[set], and the set of properties
    flagged as part of the output. *)
Record Message : Type := mkMessage {
  data : gmap string val;
  output_properties : gset string
}.

(** [message.get(prop)], [None] when the property is not set. *)
Definition message_get (message : Message) (prop : string) : option val :=
  data message !! prop.

(** [message.set(prop, info, add_to_output)]. *)
Definition message_set (message : Message) (prop : string) (info : val)
    (add_to_output : bool) : Message :=
  mkMessage (<[prop := info]> (data message))
            (if add_to_output then {[prop]} ∪ output_properties message
             else output_properties message).

(** ** The methods of [EntityTypoFixer] *)

Section Component.
Context `{Host}.

(** [__init__(self, component_config, entities)].  The base-class
    constructor is host code: it records the configuration and raises
    nothing, also for [None].  Reading [component_config.get] on [None]
    raises [AttributeError]. *)
Definition init (component_config : option (gmap string scalar))
    (ents : option (list string)) : result EntityTypoFixer :=
  let es := match ents with
            | Some (e :: l) => e :: l
            | Some [] | None => []
            end in
  match component_config with
  | None => Raise AttributeError
  | Some cfg =>
      match defaults !! "score_cutoff" with
      | None => Raise KeyError
      | Some d => Ok (mkFixer es (default d (cfg !! "score_cutoff")))
      end
  end.

(** [train(self, training_data)]. *)
Definition train (training_data : TrainingData) : M unit :=
  c ← get_self;
  set_self (mkFixer (map fst (entity_synonyms training_data)) (score_cutoff c)).

(** [str(x)]: text is itself; [None], booleans and integers print as Python
    prints them; a list or dict prints through [py_repr]. *)
Definition py_str (h : gmap positive obj) (x : val) : string :=
  match x with
  | Sc (SStr s) => s
  | Sc SNone => "None"
  | Sc (SBool true) => "True"
  | Sc (SBool false) => "False"
  | Sc (SInt z) => pretty z
  | Ref l => py_repr h l
  end.

(** The dict behind [entity] when [entity[...]] is read or written with a
    text key; subscripting anything else with text raises [TypeError]. *)
Definition as_dict (entity : val) : M (positive * gmap string val) :=
  h ← get_heap;
  match entity with
  | Ref l => match h !! l with
             | Some (ODict d) => ret (l, d)
             | Some (OList _) | None => raise TypeError
             end
  | Sc _ => raise TypeError
  end.

(** Allocation of a new object. *)
Definition alloc (o : obj) : M positive :=
  h ← get_heap;
  let l := fresh (dom h) in
  set_heap (<[l := o]> h);;
  ret l.

(** [add_processor_name(self, entity)]; returns [entity]. *)
Definition add_processor_name (entity : val) : M val :=
  '(l, d) ← as_dict entity;
  match d !! "processors" with
  | Some v =>
      (* entity["processors"].append(self.name) *)
      h ← get_heap;
      match v with
      | Ref p => match h !! p with
                 | Some (OList xs) =>
                     set_heap (<[p := OList (xs ++ [VStr component_name])]> h)
                 | Some (ODict _) | None => raise AttributeError
                 end
      | Sc _ => raise AttributeError
      end;;
      ret entity
  | None =>
      (* entity["processors"] = [self.name] *)
      p ← alloc (OList [VStr component_name]);
      h ← get_heap;
      set_heap (<[l := ODict (<["processors" := Ref p]> d)]> h);;
      ret entity
  end.

(** The body of the loop of [fix_entity_typo], for one [entity]. *)
Definition fix_entity (entity : val) : M unit :=
  '(l, d) ← as_dict entity;
  match d !! "value" with
  | None => raise KeyError
  | Some x =>
      h ← get_heap;
      let entity_value := py_str h x in
      c ← get_self;
      fuzzy_match ← lift (extractOne entity_value (entities c) (score_cutoff c));
      match fuzzy_match with
      | Some (fuzzy_entity, _) =>
          if decide (fuzzy_entity ≠ entity_value) then
            set_heap (<[l := ODict (<["value" := VStr fuzzy_entity]> d)]> h);;
            _ ← add_processor_name entity;
            ret tt
          else ret tt
      | None => ret tt
      end
  end.

(** The items a [for] loop over [it] reads, in the store [h]: the slots of a
    list, the keys of a dict, the characters of a text; other scalars are
    not iterable.  The order of the keys of a dict plays no role: the body of
    the loop raises on the first one. *)
Definition iter_items (h : gmap positive obj) (it : val) : result (list val) :=
  match it with
  | Ref l => match h !! l with
             | Some (OList xs) => Ok xs
             | Some (ODict d) => Ok ((fun kv => VStr kv.1) <$> map_to_list d)
             | None => Raise TypeError
             end
  | Sc (SStr s) => Ok ((fun a => VStr (String a "")) <$> String.list_ascii_of_string s)
  | Sc _ => Raise TypeError
  end.

(** [for x in it: body(x)], from position [i] on.  The iterator reads the
    object again at every step, so it sees what the body appended. *)
Fixpoint for_loop (fuel : nat) (it : val) (i : nat) (body : val -> M unit)
    : M unit :=
  match fuel with
  | O => raise NoFuel
  | S n =>
      h ← get_heap;
      items ← lift (iter_items h it);
      match items !! i with
      | None => ret tt
      | Some x => body x;; for_loop n it (S i) body
      end
  end.

(** [fix_entity_typo(self, entities)]. *)
Definition fix_entity_typo (ents : val) : M unit :=
  h ← get_heap;
  items ← lift (iter_items h ents);
  for_loop (S (List.length items)) ents 0 fix_entity.

(** [process(self, message)]; the updated message is returned.  The default
    [[]] of [message.get] is allocated only when it is used. *)
Definition process (message : Message) : M Message :=
  extracted_entities ←
    match message_get message ENTITIES with
    | Some v => ret v
    | None => l ← alloc (OList []); ret (Ref l)
    end;
  fix_entity_typo extracted_entities;;
  ret (message_set message ENTITIES extracted_entities true).

(** The host's [write_json_to_file(path, obj)]. *)
Definition write_json_to_file (path : string) (l : list string) : M unit :=
  f ← get_fs;
  set_fs (<[path := json_dumps l]> f).

(** The host's [read_json_file(path)] on an existing file. *)
Definition read_json_file (path : string) : M (list string) :=
  f ← get_fs;
  match f !! path with
  | None => raise FileIOException
  | Some text => match json_loads text with
                 | Some l => ret l
                 | None => raise FileIOException
                 end
  end.

(** [os.path.isfile(path)]. *)
Definition isfile (f : gmap string string) (path : string) : bool :=
  match f !! path with
  | Some _ => true
  | None => false
  end.

(** [persist(self, file_name, model_dir)]; returns the descriptor. *)
Definition persist (file_name model_dir : string) : M (gmap string scalar) :=
  c ← get_self;
  match entities c with
  | _ :: _ =>
      let file_name := file_name +:+ ".json" in
      let entity_file := path_join model_dir file_name in
      write_json_to_file entity_file (entities c);;
      ret {[ "file" := SStr file_name ]}
  | [] => ret {[ "file" := SNone ]}
  end.

(** [load(cls, meta, model_dir)]; returns the new instance.  [os.path.join]
    raises [TypeError] on a component that is not text. *)
Definition load (meta : gmap string scalar) (model_dir : string)
    : M EntityTypoFixer :=
  let file_name := default SNone (meta !! "file") in
  if negb (truthy file_name) then
    let ents := None in
    lift (init (Some meta) ents)
  else
    match file_name with
    | SStr fn =>
        let entities_file := path_join model_dir fn in
        f ← get_fs;
        ents ← (if isfile f entities_file
                then l ← read_json_file entities_file; ret (Some l)
                else ret None);
        lift (init (Some meta) ents)
    | SNone | SBool _ | SInt _ => raise TypeError
    end.

End Component.

(** ** A host to run the methods on

    The theorems below hold for every host.  This one makes the methods
    computable on examples: similarity is the ratio of the longest common
    subsequence to the lengths, in percent; paths are joined as on POSIX;
    JSON text is a bracketed list of quoted strings. *)

Fixpoint lcs (a b : list ascii) : nat :=
  match a with
  | [] => O
  | x :: a' =>
      (fix go (b : list ascii) : nat :=
         match b with
         | [] => O
         | y :: b' =>
             if Ascii.eqb x y then S (lcs a' b')
             else Nat.max (lcs a' b) (go b')
         end) b
  end.

Definition lcs_ratio (q c : string) : Z :=
  let a := String.list_ascii_of_string q in
  let b := String.list_ascii_of_string c in
  let n := Z.of_nat (List.length a + List.length b) in
  if n =? 0 then 0 else (200 * Z.of_nat (lcs a b)) / n.

Definition slash : ascii := "/"%char.
Definition dquote : ascii := Eval cbv in Ascii.ascii_of_nat 34.
Definition backslash : ascii := Eval cbv in Ascii.ascii_of_nat 92.

Fixpoint ends_with_slash (s : string) : bool :=
  match s with
  | EmptyString => false
  | String a EmptyString => Ascii.eqb a slash
  | String _ s' => ends_with_slash s'
  end.

(** [posixpath.join(a, b)]: an absolute [b] replaces [a]. *)
Definition posix_join (a b : string) : string :=
  match b with
  | String c _ =>
      if Ascii.eqb c slash then b
      else if String.eqb a "" || ends_with_slash a then a +:+ b
      else a +:+ String slash b
  | EmptyString =>
      if String.eqb a "" || ends_with_slash a then a
      else a +:+ String slash ""
  end.

(** A quoted JSON string: quotes and backslashes are escaped. *)
Fixpoint json_escape (s : string) : string :=
  match s with
  | EmptyString => EmptyString
  | String a s' =>
      if Ascii.eqb a dquote || Ascii.eqb a backslash
      then String backslash (String a (json_escape s'))
      else String a (json_escape s')
  end.

Definition json_quote (s : string) : string :=
  String dquote (json_escape s +:+ String dquote "").

Fixpoint json_items (l : list string) : string :=
  match l with
  | [] => ""
  | [s] => json_quote s
  | s :: l' => json_quote s +:+ ", " +:+ json_items l'
  end.

Definition simple_json_dumps (l : list string) : string :=
  "[" +:+ json_items l +:+ "]".

(** The reader: a scanner over the characters. *)
Inductive scan : Type :=
  | AtStart                       (* before the opening bracket *)
  | AtOpen                        (* after it: a string or the closing bracket *)
  | InString (acc : string)       (* in a string; [acc] is what was read, reversed *)
  | InEscape (acc : string)       (* after a backslash in a string *)
  | AfterString                   (* after a string: a comma or the closing bracket *)
  | AfterComma                    (* after a comma: blanks, then a string *)
  | AtEnd.                        (* after the closing bracket *)

Fixpoint string_rev_append (s acc : string) : string :=
  match s with
  | EmptyString => acc
  | String a s' => string_rev_append s' (String a acc)
  end.

Fixpoint scan_json (text : string) (state : scan) (items : list string)
    : option (list string) :=
  match text with
  | EmptyString =>
      match state with
      | AtEnd => Some (rev items)
      | _ => None
      end
  | String a rest =>
      match state with
      | AtStart =>
          if Ascii.eqb a "["%char then scan_json rest AtOpen items
          else None
      | AtOpen =>
          if Ascii.eqb a dquote then scan_json rest (InString "") items
          else if Ascii.eqb a "]"%char then scan_json rest AtEnd items
          else None
      | InString acc =>
          if Ascii.eqb a dquote
          then scan_json rest AfterString (string_rev_append acc "" :: items)
          else if Ascii.eqb a backslash then scan_json rest (InEscape acc) items
          else scan_json rest (InString (String a acc)) items
      | InEscape acc =>
          if Ascii.eqb a dquote || Ascii.eqb a backslash
          then scan_json rest (InString (String a acc)) items
          else None
      | AfterString =>
          if Ascii.eqb a ","%char then scan_json rest AfterComma items
          else if Ascii.eqb a "]"%char then scan_json rest AtEnd items
          else None
      | AfterComma =>
          if Ascii.eqb a " "%char then scan_json rest AfterComma items
          else if Ascii.eqb a dquote then scan_json rest (InString "") items
          else None
      | AtEnd => None
      end
  end.

Definition simple_json_loads (text : string) : option (list string) :=
  scan_json text AtStart [].

Definition example_host : Host := {|
  scorer := lcs_ratio;
  py_repr := fun _ _ => "<object>";
  component_name := "EntityTypoFixer";
  ENTITIES := "entities";
  path_join := posix_join;
  json_dumps := simple_json_dumps;
  json_loads := simple_json_loads
|}.

(** The example of the spec: the canonical list [Berlin, Munich], cutoff 80,
    and a message with the records [Berln] (no [processors]), [Tokyo]
    (already handled by an upstream component) and [Munich]. *)
Definition example_fixer : EntityTypoFixer :=
  mkFixer ["Berlin"; "Munich"] (SInt 80).

Definition berln_record : gmap string val :=
  {[ "entity" := VStr "city"; "value" := VStr "Berln";
     "start" := Sc (SInt 10); "end" := Sc (SInt 15) ]}.

Definition tokyo_record : gmap string val :=
  {[ "entity" := VStr "city"; "value" := VStr "Tokyo";
     "processors" := Ref 3%positive ]}.

Definition munich_record : gmap string val :=
  {[ "entity" := VStr "city"; "value" := VStr "Munich" ]}.

Definition example_heap : gmap positive obj :=
  {[ 1%positive := ODict berln_record;
     2%positive := ODict tokyo_record;
     3%positive := OList [VStr "Upstream"];
     4%positive := OList [Ref 1%positive; Ref 2%positive; Ref 5%positive];
     5%positive := ODict munich_record ]}.

Definition example_state : State := mkState example_fixer example_heap ∅.

Definition example_message : Message :=
  mkMessage {[ "text" := VStr "from Berln to Tokyo via Munich";
               "entities" := Ref 4%positive ]} ∅.

(** A second store, with elements the loop body faults on and two records
    that share one [processors] list. *)
Definition faulty_heap : gmap positive obj :=
  {[ 1%positive := ODict {[ "entity" := VStr "city" ]};
     2%positive := OList [];
     3%positive := ODict {[ "value" := VStr "Berln"; "processors" := Sc SNone ]};
     4%positive := ODict {[ "value" := VStr "Berln"; "processors" := Ref 6%positive ]};
     5%positive := ODict {[ "value" := VStr "Munich"; "processors" := Ref 6%positive ]};
     6%positive := OList [VStr "Upstream"] ]}.

Definition faulty_state : State := mkState example_fixer faulty_heap ∅.

(** A third store: the record [Munic] comes second in the sequence and has
    been handled upstream, as has the record before it; each has a
    [processors] list of its own. *)
Definition munic_record : gmap string val :=
  {[ "entity" := VStr "city"; "value" := VStr "Munic";
     "processors" := Ref 2%positive ]}.

Definition osaka_record : gmap string val :=
  {[ "entity" := VStr "city"; "value" := VStr "Osaka";
     "processors" := Ref 5%positive ]}.

Definition upstream_heap : gmap positive obj :=
  {[ 1%positive := ODict munic_record;
     2%positive := OList [VStr "Upstream"];
     3%positive := OList [Ref 4%positive; Ref 1%positive];
     4%positive := ODict osaka_record;
     5%positive := OList [VStr "Upstream"; VStr "Other"] ]}.

Definition upstream_state : State := mkState example_fixer upstream_heap ∅.

Definition upstream_message : Message :=
  mkMessage {[ "text" := VStr "from Osaka to Munic";
               "entities" := Ref 3%positive ]} ∅.

(** A component that was never trained, a message without entities, a
    directory with a file that is no JSON, and a small corpus. *)
Definition untrained_state : State :=
  mkState (mkFixer [] (SInt 80)) example_heap ∅.

Definition bare_message : Message :=
  mkMessage {[ "text" := VStr "hello" ]} ∅.

Definition broken_file_state : State :=
  mkState example_fixer ∅ {[ "models/component_1.json" := "Berlin, Munich" ]}.

Definition example_corpus : TrainingData :=
  mkTrainingData [("NYC", "New York"); ("Big Apple", "New York")].

(** ** Reading a record

    The field [k] of the record at [l] in the store [h]. *)
Definition field_of (h : gmap positive obj) (l : positive) (k : string)
    : option val :=
  match h !! l with
  | Some (ODict d) => d !! k
  | Some (OList _) | None => None
  end.

(** The [processors] sequence of the record [d] in the store [h]: the slots of
    the list object the field refers to, when there is one. *)
Definition processors_of (h : gmap positive obj) (d : gmap string val)
    : option (list val) :=
  match d !! "processors" with
  | Some (Ref p) => match h !! p with
                    | Some (OList xs) => Some xs
                    | Some (ODict _) | None => None
                    end
  | Some (Sc _) | None => None
  end.

(** ** Well-formed messages

    A cutoff that [>=] accepts against an integer score. *)
Definition is_number (c : scalar) : bool :=
  match c with
  | SInt _ | SBool _ => true
  | SNone | SStr _ => false
  end.

(** An element of the entity sequence at [li] that the loop body can handle:
    a dict with a [value], whose [processors] is absent or a list object
    other than the sequence itself. *)
Definition record_ok (h : gmap positive obj) (li : positive) (x : val) : bool :=
  match x with
  | Ref l =>
      match h !! l with
      | Some (ODict d) =>
          match d !! "value", d !! "processors" with
          | Some _, None => true
          | Some _, Some (Ref p) =>
              match h !! p with
              | Some (OList _) => negb (Pos.eqb p li)
              | Some (ODict _) | None => false
              end
          | Some _, Some (Sc _) => false
          | None, _ => false
          end
      | Some (OList _) | None => false
      end
  | Sc _ => false
  end.

(** The record at [l], with dict [d], has a [processors] list of its own
    among the records of the sequence [xs]: no other record of the sequence
    refers to the same list object. *)
Definition own_processors (h : gmap positive obj) (xs : list val)
    (l : positive) (d : gmap string val) : Prop :=
  forall l' d' p,
    Ref l' ∈ xs -> l' <> l -> h !! l' = Some (ODict d') ->
    d !! "processors" = Some (Ref p) -> d' !! "processors" <> Some (Ref p).

(** What the loop over the sequence [xs] at [li] keeps, seen from the record
    at [l] of the sequence, whose dict is [d] at this point: the sequence and
    the component [c0] are as at the start, the records are well-formed, and
    the record has a [processors] list of its own. *)
Definition loop_inv (li : positive) (xs : list val) (l : positive)
    (c0 : EntityTypoFixer) (st : State) (d : gmap string val) : Prop :=
  heap_of st !! li = Some (OList xs) /\
  forallb (record_ok (heap_of st) li) xs = true /\
  self st = c0 /\
  Ref l ∈ xs /\
  heap_of st !! l = Some (ODict d) /\
  own_processors (heap_of st) xs l d.

(** * Properties *)

(** ** The fuzzy-matching routine against the best match of the spec *)

Section MatchingFacts.
Context `{Host}.

Lemma extractWithoutOrder_filter q L c :
  extractWithoutOrder q L (SInt c)
  = Ok (List.filter (at_least c) (map (fun m => (m, scorer q m)) L)).
Proof.
  induction L as [|m L IH]; simpl; [done|].
  rewrite IH. by unfold at_least.
Qed.

Lemma fold_pick_ge xs : forall x p,
  p ∈ x :: xs -> p.2 <= (fold_left pick xs x).2.
Proof.
  induction xs as [|y ys IH]; intros x p Hp; simpl.
  - apply list_elem_of_singleton in Hp. subst. lia.
  - assert ((pick x y).2 <= (fold_left pick ys (pick x y)).2) as Hpick
      by (apply IH; left).
    assert (x.2 <= (pick x y).2 /\ y.2 <= (pick x y).2) as [Hx Hy]
      by (unfold pick; destruct (Z.ltb_spec x.2 y.2); simpl; lia).
    apply elem_of_cons in Hp as [Hp|Hp]; [subst; lia|].
    apply elem_of_cons in Hp as [Hp|Hp]; [subst; lia|].
    apply IH. by right.
Qed.

Lemma fold_pick_in xs : forall x, fold_left pick xs x ∈ x :: xs.
Proof.
  induction xs as [|y ys IH]; intros x; simpl; [left|].
  specialize (IH (pick x y)). apply elem_of_cons in IH as [->|IH].
  - unfold pick. destruct (x.2 <? y.2); [right; left | left].
  - right. by right.
Qed.

(** Filtering by the cutoff before taking the first maximum gives the first
    maximum of the whole list, when that one passes the cutoff. *)
Lemma pick_lt x y : x.2 < y.2 -> pick x y = y.
Proof. intros Hlt. unfold pick. by destruct (Z.ltb_spec x.2 y.2); [|lia]. Qed.

Lemma pick_ge x y : y.2 <= x.2 -> pick x y = x.
Proof. intros Hge. unfold pick. by destruct (Z.ltb_spec x.2 y.2); [lia|]. Qed.

Lemma at_least_spec c p : reflect (c <= p.2) (at_least c p).
Proof. unfold at_least. apply iff_reflect. symmetry. apply Z.leb_le. Qed.

Lemma max_filter_keep c xs : forall x,
  c <= (fold_left pick xs x).2 ->
  max_by_score (List.filter (at_least c) (x :: xs))
  = Some (fold_left pick xs x).
Proof.
  induction xs as [|y ys IH]; intros x Hc.
  - simpl in *. by destruct (at_least_spec c x).
  - cbn [fold_left] in *.
    destruct (Z.lt_ge_cases x.2 y.2) as [Hlt|Hge].
    + rewrite (pick_lt x y Hlt) in *. rewrite <- (IH y Hc).
      cbn [List.filter].
      destruct (at_least_spec c x), (at_least_spec c y); try done; try lia.
      simpl. by rewrite (pick_lt x y Hlt).
    + rewrite (pick_ge x y Hge) in *. rewrite <- (IH x Hc).
      cbn [List.filter].
      destruct (at_least_spec c x), (at_least_spec c y); try done; try lia.
      simpl. by rewrite (pick_ge x y Hge).
Qed.

Lemma filter_below_nil c (xs : list (string * Z)) :
  (forall p, p ∈ xs -> p.2 < c) -> List.filter (at_least c) xs = [].
Proof.
  induction xs as [|x xs IH]; intros Hall; simpl; [done|].
  destruct (at_least_spec c x) as [Hx|Hx].
  - specialize (Hall x ltac:(left)). lia.
  - apply IH. intros p Hp. apply Hall. by right.
Qed.

(** [extractOne] is the best match of the spec, kept when its score is at or
    above the cutoff. *)
Lemma extractOne_best_match v L c :
  extractOne v L (SInt c)
  = Ok (match best_match v L with
        | Some (m, s) => if c <=? s then Some (m, s) else None
        | None => None
        end).
Proof.
  unfold extractOne, best_match. rewrite extractWithoutOrder_filter.
  f_equal. destruct (map _ L) as [|x xs]; [done|].
  cbn [max_by_score].
  destruct (fold_left pick xs x) as [m s] eqn:E.
  destruct (Z.leb_spec c s) as [Hc|Hc].
  - rewrite <- E. apply max_filter_keep. rewrite E. done.
  - rewrite filter_below_nil; [done|]. intros p Hp.
    pose proof (fold_pick_ge xs x p Hp) as Hle. rewrite E in Hle. simpl in Hle. lia.
Qed.


Lemma extractOne_some v L c m s :
  best_match v L = Some (m, s) -> c <= s ->
  extractOne v L (SInt c) = Ok (Some (m, s)).
Proof.
  intros Hb Hc. rewrite extractOne_best_match, Hb.
  by destruct (Z.leb_spec c s); [|lia].
Qed.

(** The best match is an element of the list and no element scores higher. *)
Lemma best_match_elem v L m s :
  best_match v L = Some (m, s) -> m ∈ L /\ s = scorer v m.
Proof.
  unfold best_match. destruct L as [|a L]; [done|]. cbn. intros [= E].
  pose proof (fold_pick_in (map (fun m => (m, scorer v m)) L) (a, scorer v a)) as Hin.
  rewrite E in Hin.
  change ((a, scorer v a) :: map (fun m => (m, scorer v m)) L)
    with (map (fun m => (m, scorer v m)) (a :: L)) in Hin.
  apply list_elem_of_fmap in Hin as (m' & [= -> ->] & Hm). done.
Qed.

Lemma best_match_max v L m s :
  best_match v L = Some (m, s) -> forall m', m' ∈ L -> scorer v m' <= s.
Proof.
  unfold best_match. destruct L as [|a L]; [done|]. cbn. intros [= E] m' Hm'.
  pose proof (fold_pick_ge (map (fun m => (m, scorer v m)) L) (a, scorer v a)
                (m', scorer v m')) as Hle.
  rewrite E in Hle. apply Hle.
  change ((a, scorer v a) :: map (fun m => (m, scorer v m)) L)
    with (map (fun m => (m, scorer v m)) (a :: L)).
  apply list_elem_of_fmap. eauto.
Qed.

(** The routine raises nothing but the [TypeError] of a cutoff that is not a
    number. *)
Lemma extractWithoutOrder_raises q L cutoff e :
  extractWithoutOrder q L cutoff = Raise e -> e = TypeError.
Proof.
  induction L as [|m L IH]; simpl; [done|].
  destruct cutoff; simpl; try congruence;
    destruct (extractWithoutOrder q L _); simpl; try congruence;
    intros [= <-]; by apply IH.
Qed.

Lemma extractOne_raises q L cutoff e :
  extractOne q L cutoff = Raise e -> e = TypeError.
Proof.
  unfold extractOne.
  destruct (extractWithoutOrder q L cutoff) eqn:E; [done|].
  intros [= <-]. by eapply extractWithoutOrder_raises.
Qed.

End MatchingFacts.

(** ** Running the methods *)

Section ComponentFacts.
Context `{Host}.

Lemma run_bind {A B} (m : M A) (k : A -> M B) st :
  (m ≫= k) st = match m st with
                | (Ok a, st') => k a st'
                | (Raise e, st') => (Raise e, st')
                end.
Proof. reflexivity. Qed.

Lemma run_assoc {A B C} (m : M A) (f : A -> M B) (g : B -> M C) st :
  ((m ≫= f) ≫= g) st = (m ≫= (fun a => f a ≫= g)) st.
Proof.
  rewrite !run_bind. destruct (m st) as [[a|e] st']; [|done].
  by rewrite run_bind.
Qed.

Lemma run_get_heap {B} (k : gmap positive obj -> M B) st :
  (get_heap ≫= k) st = k (heap_of st) st.
Proof. reflexivity. Qed.

Lemma run_get_self {B} (k : EntityTypoFixer -> M B) st :
  (get_self ≫= k) st = k (self st) st.
Proof. reflexivity. Qed.

Lemma run_get_fs {B} (k : gmap string string -> M B) st :
  (get_fs ≫= k) st = k (fs st) st.
Proof. reflexivity. Qed.

Lemma run_set_heap {B} h (k : unit -> M B) st :
  (set_heap h ≫= k) st = k tt (mkState (self st) h (fs st)).
Proof. reflexivity. Qed.

Lemma run_set_self {B} c (k : unit -> M B) st :
  (set_self c ≫= k) st = k tt (mkState c (heap_of st) (fs st)).
Proof. reflexivity. Qed.

Lemma run_set_fs {B} f (k : unit -> M B) st :
  (set_fs f ≫= k) st = k tt (mkState (self st) (heap_of st) f).
Proof. reflexivity. Qed.

Lemma run_ret {A B} (a : A) (k : A -> M B) st : (ret a ≫= k) st = k a st.
Proof. reflexivity. Qed.

Lemma run_mret {A B} (a : A) (k : A -> M B) st : (mret a ≫= k) st = k a st.
Proof. reflexivity. Qed.

Lemma run_raise {A B} e (k : A -> M B) st :
  (raise e ≫= k) st = (Raise e, st).
Proof. reflexivity. Qed.

Lemma run_lift_ok {A B} (a : A) (k : A -> M B) st :
  (lift (Ok a) ≫= k) st = k a st.
Proof. reflexivity. Qed.

Lemma run_lift_raise {A B} e (k : A -> M B) st :
  (lift (Raise e) ≫= k) st = (Raise e, st).
Proof. reflexivity. Qed.

Create Rewrite HintDb py_run.
#[local] Hint Rewrite @run_assoc @run_get_heap @run_get_self @run_get_fs @run_set_heap
  @run_set_self @run_set_fs @run_ret @run_mret @run_raise @run_lift_ok
  @run_lift_raise : py_run.

Ltac run := repeat (autorewrite with py_run; cbn beta iota zeta).

Lemma as_dict_run st l d :
  heap_of st !! l = Some (ODict d) -> as_dict (Ref l) st = (Ok (l, d), st).
Proof. intros Hl. unfold as_dict. rewrite run_bind. simpl. by rewrite Hl. Qed.

Lemma fresh_lookup (h : gmap positive obj) q o :
  h !! q = Some o -> q <> fresh (dom h).
Proof.
  intros Hq ->. apply (is_fresh (dom h)). apply elem_of_dom. eauto.
Qed.

(** [add_processor_name] on a record without [processors]: a new list object
    holding the name, and the field set to it. *)
Lemma add_processor_name_absent (st : State) l d :
  heap_of st !! l = Some (ODict d) ->
  d !! "processors" = None ->
  add_processor_name (Ref l) st
  = (Ok (Ref l),
     let p := fresh (dom (heap_of st)) in
     mkState (self st)
       (<[l := ODict (<["processors" := Ref p]> d)]>
          (<[p := OList [VStr component_name]]> (heap_of st)))
       (fs st)).
Proof.
  intros Hl Hd. unfold add_processor_name.
  rewrite run_bind, (as_dict_run _ _ _ Hl). cbn beta iota. rewrite Hd.
  unfold alloc. by run.
Qed.

(** [add_processor_name] on a record whose [processors] is a list object: the
    name is appended to that object. *)
Lemma add_processor_name_present (st : State) l d p xs :
  heap_of st !! l = Some (ODict d) ->
  d !! "processors" = Some (Ref p) ->
  heap_of st !! p = Some (OList xs) ->
  add_processor_name (Ref l) st
  = (Ok (Ref l),
     mkState (self st)
       (<[p := OList (xs ++ [VStr component_name])]> (heap_of st)) (fs st)).
Proof.
  intros Hl Hd Hp. unfold add_processor_name.
  rewrite run_bind, (as_dict_run _ _ _ Hl). cbn beta iota. rewrite Hd.
  run. rewrite Hp. by run.
Qed.

(** ** Correction of one record *)



(** One run of the loop body on a record whose best match [m] scores at or
    above the cutoff and differs from its text: the record gets [m] as its
    [value], and the component's name at the end of its [processors]
    sequence: after the entries it had, or as the only entry of a new
    sequence when the field was absent.  [process_corrects] below carries
    this through the loop. *)
Lemma fix_entity_corrects (st : State) (l : positive)
    (d : gmap string val) (x : val) (c : Z) (m : string) (s : Z) :
  heap_of st !! l = Some (ODict d) ->
  d !! "value" = Some x ->
  score_cutoff (self st) = SInt c ->
  best_match (py_str (heap_of st) x) (entities (self st)) = Some (m, s) ->
  c <= s ->
  m <> py_str (heap_of st) x ->
  d !! "processors" = None \/ is_Some (processors_of (heap_of st) d) ->
  exists st' d',
    fix_entity (Ref l) st = (Ok tt, st') /\
    heap_of st' !! l = Some (ODict d') /\
    d' !! "value" = Some (VStr m) /\
    processors_of (heap_of st') d'
    = Some (default [] (processors_of (heap_of st) d) ++ [VStr component_name]).
Proof.
  intros Hl Hx Hc Hb Hs Hm Hp. unfold fix_entity.
  rewrite run_bind, (as_dict_run _ _ _ Hl). cbn beta iota. rewrite Hx. run.
  rewrite Hc, (extractOne_some _ _ _ _ _ Hb Hs). run.
  destruct (decide (m <> py_str (heap_of st) x)) as [_|]; [|done]. run.
  set (d1 := <["value" := VStr m]> d).
  set (st1 := mkState _ _ _).
  assert (heap_of st1 !! l = Some (ODict d1)) as Hl1 by apply lookup_insert_eq.
  assert (d1 !! "processors" = d !! "processors") as Hd1
    by by apply lookup_insert_ne.
  rewrite run_bind. unfold processors_of in *.
  destruct (d !! "processors") as [[c0|p]|] eqn:Hd.
  - destruct Hp as [|[? ?]]; done.
  - destruct (heap_of st !! p) as [[xs|d0]|] eqn:Hq;
      try (destruct Hp as [|[? ?]]; done).
    assert (p <> l) as Hpl by congruence.
    rewrite (add_processor_name_present st1 l d1 p xs); [|done|done|].
    2:{ subst st1. simpl. by rewrite lookup_insert_ne. }
    eexists _, d1. split; [done|]. subst st1 d1. simpl.
    rewrite lookup_insert_ne by done. rewrite lookup_insert_eq.
    split; [done|]. rewrite lookup_insert_eq. split; [done|].
    rewrite lookup_insert_ne by done. rewrite Hd.
    by rewrite lookup_insert_eq.
  - rewrite (add_processor_name_absent st1 l d1); [|done|done].
    assert (l <> fresh (dom (heap_of st1))) as Hfresh
      by by eapply fresh_lookup.
    eexists _, _. split; [done|]. subst d1. simpl.
    rewrite lookup_insert_eq. split; [done|].
    rewrite lookup_insert_ne by done. rewrite lookup_insert_eq. split; [done|].
    rewrite lookup_insert_eq. rewrite lookup_insert_ne by done.
    by rewrite lookup_insert_eq.
Qed.

(** What [add_processor_name] does to the state, whatever it returns or
    raises. *)
Lemma add_processor_name_effect (e : val) (st : State) :
  let st' := (add_processor_name e st).2 in
  self st' = self st /\ fs st' = fs st /\
  (forall q xs, heap_of st !! q = Some (OList xs) ->
     heap_of st' !! q = Some (OList xs) \/
     heap_of st' !! q = Some (OList (xs ++ [VStr component_name]))) /\
  (forall q d, heap_of st !! q = Some (ODict d) ->
     exists d', heap_of st' !! q = Some (ODict d') /\
       (e <> Ref q -> d' = d) /\
       (forall k, k <> "processors" -> d' !! k = d !! k)).
Proof.
  unfold add_processor_name, as_dict, alloc.
  destruct e as [c|l]; run; [simpl; by eauto 10|].
  destruct (heap_of st !! l) as [[xs|d]|] eqn:Hl; run; try (simpl; by eauto 10).
  destruct (d !! "processors") as [[c|p]|] eqn:Hp; run; try (simpl; by eauto 10).
  - destruct (heap_of st !! p) as [[ys|d0]|] eqn:Hq; run; try (simpl; by eauto 10).
    simpl. split_and!; try done.
    + intros q xs Hqx. destruct (decide (q = p)) as [->|Hne].
      * right. rewrite lookup_insert_eq. congruence.
      * left. by rewrite lookup_insert_ne.
    + intros q d1 Hqd. exists d1. rewrite lookup_insert_ne by congruence. done.
  - simpl. split_and!; try done.
    + intros q xs Hqx. left.
      rewrite lookup_insert_ne by congruence.
      rewrite lookup_insert_ne; [done|]. symmetry. by eapply fresh_lookup.
    + intros q d1 Hqd. destruct (decide (q = l)) as [->|Hne].
      * rewrite lookup_insert_eq. eexists. split; [done|]. split; [congruence|].
        intros k Hk. rewrite lookup_insert_ne by done. congruence.
      * exists d1. rewrite lookup_insert_ne by done.
        rewrite lookup_insert_ne; [done|]. symmetry. by eapply fresh_lookup.
Qed.

(** What one run of the loop body does to the state, whatever it returns or
    raises: the component and the files are as before, a list object is as
    before or has the component's name appended, and a dict object stays a
    dict that differs at most in [value] and [processors], and not at all
    when it is not the record at hand. *)
Lemma fix_entity_effect (x : val) (st : State) :
  let st' := (fix_entity x st).2 in
  self st' = self st /\ fs st' = fs st /\
  (forall q xs, heap_of st !! q = Some (OList xs) ->
     heap_of st' !! q = Some (OList xs) \/
     heap_of st' !! q = Some (OList (xs ++ [VStr component_name]))) /\
  (forall q d, heap_of st !! q = Some (ODict d) ->
     exists d', heap_of st' !! q = Some (ODict d') /\
       (x <> Ref q -> d' = d) /\
       (forall k, k <> "value" -> k <> "processors" -> d' !! k = d !! k)).
Proof.
  unfold fix_entity, as_dict.
  destruct x as [c|l]; run; [simpl; by eauto 10|].
  destruct (heap_of st !! l) as [[xs|d]|] eqn:Hl; run; try (simpl; by eauto 10).
  destruct (d !! "value") as [x|] eqn:Hx; run; [|simpl; by eauto 10].
  destruct (extractOne _ _ _) as [[[m s]|]|e]; run; try (simpl; by eauto 10).
  destruct (decide (m <> py_str (heap_of st) x)) as [Hne|Heq]; run;
    [|simpl; by eauto 10].
  set (st1 := mkState _ _ _).
  pose proof (add_processor_name_effect (Ref l) st1) as (Hs & Hf & Hlist & Hdict).
  rewrite run_bind. destruct (add_processor_name (Ref l) st1) as [[a|e] st2];
    cbn [snd] in *; subst st1; simpl in *.
  all: split_and!; try done.
  all: try (intros q xs Hq; apply Hlist; rewrite lookup_insert_ne; [done|congruence]).
  all: intros q d0 Hq; destruct (decide (q = l)) as [->|Hql].
  all: try (destruct (Hdict l (<["value" := VStr m]> d)) as (d' & Hd' & _ & Hk);
            [by rewrite lookup_insert_eq|];
            exists d'; split; [done|]; split; [congruence|];
            intros k Hk1 Hk2; rewrite Hk by done; rewrite lookup_insert_ne by done;
            congruence).
  all: destruct (Hdict q d0) as (d' & Hd' & Hsame & _);
         [by rewrite lookup_insert_ne|];
         exists d'; split; [done|]; split; [intros _; apply Hsame; congruence|];
         intros k _ _; rewrite Hsame; [done|congruence].
Qed.


(** ** The loop over the records *)

Lemma fix_entity_scalar (c : scalar) (st : State) :
  fix_entity (Sc c) st = (Raise TypeError, st).
Proof. unfold fix_entity, as_dict. by run. Qed.

Lemma add_processor_name_no_fuel (e : val) (st : State) :
  (add_processor_name e st).1 <> Raise NoFuel.
Proof.
  unfold add_processor_name, as_dict, alloc.
  repeat (run; case_match); run; simpl; congruence.
Qed.

Lemma fix_entity_no_fuel (x : val) (st : State) :
  (fix_entity x st).1 <> Raise NoFuel.
Proof.
  unfold fix_entity, as_dict.
  destruct x as [c|l]; run; [done|].
  destruct (heap_of st !! l) as [[xs|d]|]; run; try done.
  destruct (d !! "value") as [x|]; run; [|done].
  destruct (extractOne _ _ _) as [[[m s]|]|e] eqn:E; run; try done.
  - destruct (decide (m <> py_str (heap_of st) x)); run; [|done].
    rewrite run_bind.
    set (st1 := mkState _ _ _).
    pose proof (add_processor_name_no_fuel (Ref l) st1) as Hnf.
    destruct (add_processor_name (Ref l) st1) as [[a|e] st2]; simpl in *; congruence.
  - apply extractOne_raises in E as ->. done.
Qed.

Lemma for_loop_self_fs (fuel : nat) (it : val) : forall (i : nat) (st : State),
  self (for_loop fuel it i fix_entity st).2 = self st /\
  fs (for_loop fuel it i fix_entity st).2 = fs st.
Proof.
  induction fuel as [|n IH]; intros i st; [done|].
  cbn [for_loop]. run.
  destruct (iter_items (heap_of st) it) as [items|e]; run; [|done].
  destruct (items !! i) as [x|]; [|done].
  rewrite run_bind.
  pose proof (fix_entity_effect x st) as (Hs & Hf & _).
  destruct (fix_entity x st) as [[[]|e] st1]; cbn [snd] in *; [|done].
  destruct (IH (S i) st1) as [-> ->]. done.
Qed.

(** A loop over items that are all scalars stops at its first step. *)
Lemma for_loop_scalar_items (n : nat) (it : val) (i : nat) (st : State) items :
  iter_items (heap_of st) it = Ok items ->
  (forall x, x ∈ items -> exists c, x = Sc c) ->
  (for_loop (S n) it i fix_entity st).1 <> Raise NoFuel.
Proof.
  intros Hit Hsc. cbn [for_loop]. run. rewrite Hit. run.
  destruct (items !! i) as [x|] eqn:Hi; [|done].
  destruct (Hsc x) as [c ->]; [by eapply list_elem_of_lookup_2|].
  rewrite run_bind, fix_entity_scalar. done.
Qed.

(** A loop over a list object whose slots from [n0] on are scalars needs at
    most [n0 - i + 1] steps from position [i]: the body appends nothing but
    the component's name, and raises on it. *)
Lemma for_loop_list_fuel (n0 : nat) (li : positive) :
  forall (fuel i : nat) (st : State) (xs : list val),
    heap_of st !! li = Some (OList xs) ->
    (forall j x, (n0 <= j)%nat -> xs !! j = Some x -> exists c, x = Sc c) ->
    (i <= n0)%nat -> (n0 - i < fuel)%nat ->
    (for_loop fuel (Ref li) i fix_entity st).1 <> Raise NoFuel.
Proof.
  induction fuel as [|n IH]; intros i st xs Hli Htail Hi Hfuel; [lia|].
  cbn [for_loop]. run. cbn [iter_items]. rewrite Hli. run.
  destruct (xs !! i) as [x|] eqn:Hx; [|done].
  rewrite run_bind.
  destruct (decide (i = n0)) as [->|Hne].
  - destruct (Htail n0 x) as [c ->]; [lia|done|]. by rewrite fix_entity_scalar.
  - pose proof (fix_entity_effect x st) as (_ & _ & Hlist & _).
    pose proof (fix_entity_no_fuel x st) as Hnf.
    destruct (fix_entity x st) as [[[]|e] st1]; cbn [fst snd] in *; [|congruence].
    destruct (Hlist li xs Hli) as [Hsame|Happ].
    + apply (IH (S i) st1 xs); [done|done|lia|lia].
    + apply (IH (S i) st1 (xs ++ [VStr component_name])%list); [done| |lia|lia].
      intros j y Hj Hy. destruct (decide (j < List.length xs)%nat) as [Hlt|Hge].
      * rewrite lookup_app_l in Hy by done. by eapply Htail.
      * rewrite lookup_app_r in Hy by lia.
        apply list_lookup_singleton_Some in Hy as [_ <-]. eauto.
Qed.

(** The bound of the loop of [fix_entity_typo] is never reached. *)
Lemma fix_entity_typo_fuel (ents : val) (st : State) :
  (fix_entity_typo ents st).1 <> Raise NoFuel.
Proof.
  unfold fix_entity_typo. run.
  destruct (iter_items (heap_of st) ents) as [items|e] eqn:Hit; run;
    [|unfold iter_items in Hit; repeat case_match; simpl; congruence].
  destruct ents as [c|li].
  - apply (for_loop_scalar_items _ _ _ _ items Hit).
    destruct c; simplify_eq/=. intros x (a & -> & _)%list_elem_of_fmap. eauto.
  - simpl in Hit. destruct (heap_of st !! li) as [[xs|d]|] eqn:Hli; simplify_eq.
    + apply (for_loop_list_fuel (List.length items) li _ _ _ items);
        [done| |lia|lia].
      intros j x Hj Hx. apply lookup_lt_Some in Hx. lia.
    + eapply for_loop_scalar_items; [unfold iter_items; by rewrite Hli|].
      intros x (a & -> & _)%list_elem_of_fmap. eauto.
Qed.

(** One step of the loop over a list object. *)
Lemma for_loop_step (n : nat) (li : positive) (i : nat) (st st' : State) xs x :
  heap_of st !! li = Some (OList xs) ->
  xs !! i = Some x ->
  fix_entity x st = (Ok tt, st') ->
  for_loop (S n) (Ref li) i fix_entity st = for_loop n (Ref li) (S i) fix_entity st'.
Proof.
  intros Hli Hx Hbody. cbn [for_loop]. run. cbn [iter_items].
  rewrite Hli. run. rewrite Hx, run_bind, Hbody. done.
Qed.

Lemma for_loop_stop (n : nat) (li : positive) (i : nat) (st : State) xs :
  heap_of st !! li = Some (OList xs) ->
  xs !! i = None ->
  for_loop (S n) (Ref li) i fix_entity st = (Ok tt, st).
Proof.
  intros Hli Hx. cbn [for_loop]. run. cbn [iter_items].
  rewrite Hli. run. by rewrite Hx.
Qed.

(** When the body changes nothing on any record of the sequence, the loop
    visits them all, returns, and changes nothing. *)
Lemma fix_entity_typo_no_change (li : positive) (xs : list val) (st : State) :
  heap_of st !! li = Some (OList xs) ->
  (forall x, x ∈ xs -> fix_entity x st = (Ok tt, st)) ->
  fix_entity_typo (Ref li) st = (Ok tt, st).
Proof.
  intros Hli Hbody. unfold fix_entity_typo. run. cbn [iter_items].
  rewrite Hli. run.
  assert (forall fuel i, (List.length xs - i < fuel)%nat ->
            for_loop fuel (Ref li) i fix_entity st = (Ok tt, st)) as Hloop.
  { induction fuel as [|n IH]; intros i Hfuel; [lia|].
    destruct (xs !! i) as [x|] eqn:Hx.
    - rewrite (for_loop_step n li i st st xs x Hli Hx).
      + apply IH. apply lookup_lt_Some in Hx. lia.
      + apply Hbody. by eapply list_elem_of_lookup_2.
    - by apply (for_loop_stop n li i st xs). }
  apply Hloop. lia.
Qed.

Lemma process_no_change (message : Message) (li : positive) (xs : list val)
    (st : State) :
  message_get message ENTITIES = Some (Ref li) ->
  heap_of st !! li = Some (OList xs) ->
  (forall x, x ∈ xs -> fix_entity x st = (Ok tt, st)) ->
  process message st = (Ok (message_set message ENTITIES (Ref li) true), st).
Proof.
  intros Hget Hli Hbody. unfold process. rewrite Hget. run.
  by rewrite run_bind, (fix_entity_typo_no_change li xs st Hli Hbody).
Qed.

Lemma fix_entity_typo_self_fs (ents : val) (st : State) :
  self (fix_entity_typo ents st).2 = self st /\
  fs (fix_entity_typo ents st).2 = fs st.
Proof.
  unfold fix_entity_typo. run.
  destruct (iter_items (heap_of st) ents) as [items|e]; run; [|done].
  apply for_loop_self_fs.
Qed.

(** C8.  Processing a message, whatever its entity records and whether it
    returns or raises, leaves the canonical list as it was. *)
Theorem process_keeps_canonical_list (message : Message) (st : State) :
  entities (self (process message st).2) = entities (self st).
Proof.
  unfold process.
  destruct (message_get message ENTITIES) as [v|].
  - run. rewrite run_bind.
    pose proof (fix_entity_typo_self_fs v st) as [Hs _].
    destruct (fix_entity_typo v st) as [[[]|e] st1]; simpl in *; by rewrite Hs.
  - unfold alloc. run. rewrite run_bind.
    set (st0 := mkState _ _ _).
    pose proof (fix_entity_typo_self_fs (Ref (fresh (dom (heap_of st)))) st0)
      as [Hs _].
    destruct (fix_entity_typo _ st0) as [[[]|e] st1]; simpl in *; by rewrite Hs.
Qed.

(** ** Training and construction *)

(** C7.  Training returns [None] and leaves a component whose canonical list
    is the keys of the synonym mapping, in the mapping's order, whatever the
    list was before; nothing else changes. *)
Theorem train_replaces_entities (training_data : TrainingData) (st : State) :
  exists st',
    train training_data st = (Ok tt, st') /\
    entities (self st') = map fst (entity_synonyms training_data) /\
    score_cutoff (self st') = score_cutoff (self st) /\
    heap_of st' = heap_of st /\ fs st' = fs st.
Proof. eexists. split; [reflexivity|]. done. Qed.

(** C9.  Construction with the configuration omitted raises (an
    [AttributeError], on reading [score_cutoff]), whatever the entities; with
    a configuration it succeeds, and the cutoff is the configured one, or the
    default 80 when the configuration has no [score_cutoff]. *)
Theorem init_without_config_raises :
  (forall ents, init None ents = Raise AttributeError) /\
  (forall cfg ents, exists c,
     init (Some cfg) ents = Ok c /\
     score_cutoff c = default (SInt 80) (cfg !! "score_cutoff")).
Proof.
  split; [done|]. intros cfg ents. unfold init.
  change (defaults !! "score_cutoff") with (Some (SInt 80)). eauto.
Qed.

(** ** Persistence *)

Lemma append_json_truthy (f : string) : truthy (SStr (f +:+ ".json")) = true.
Proof. by destruct f. Qed.

Lemma persist_nonempty (f d : string) (st : State) :
  entities (self st) <> [] ->
  persist f d st
  = (Ok {[ "file" := SStr (f +:+ ".json") ]},
     mkState (self st) (heap_of st)
       (<[path_join d (f +:+ ".json") := json_dumps (entities (self st))]>
          (fs st))).
Proof.
  unfold persist, write_json_to_file. run.
  by destruct (entities (self st)).
Qed.

Lemma persist_empty (f d : string) (st : State) :
  entities (self st) = [] ->
  persist f d st = (Ok {[ "file" := SNone ]}, st).
Proof. intros He. unfold persist. run. by rewrite He. Qed.

(** C4.  With a canonical list that is not empty, [persist] writes the JSON
    text of the list to the file [f.json] joined to the directory and returns
    the descriptor of that file name; with an empty list it changes nothing
    and returns the descriptor of no file. *)
Theorem persist_writes_or_skips (f d : string) (st : State) :
  (entities (self st) <> [] ->
   persist f d st
   = (Ok {[ "file" := SStr (f +:+ ".json") ]},
      mkState (self st) (heap_of st)
        (<[path_join d (f +:+ ".json") := json_dumps (entities (self st))]>
           (fs st)))) /\
  (entities (self st) = [] ->
   persist f d st = (Ok {[ "file" := SNone ]}, st)).
Proof. split; [apply persist_nonempty | apply persist_empty]. Qed.

Lemma init_entities cfg (L : list string) :
  exists c, init (Some cfg) (Some L) = Ok c /\ entities c = L.
Proof.
  unfold init. change (defaults !! "score_cutoff") with (Some (SInt 80)).
  destruct L; eauto.
Qed.

Lemma init_no_entities cfg :
  exists c, init (Some cfg) None = Ok c /\ entities c = [].
Proof.
  unfold init. change (defaults !! "score_cutoff") with (Some (SInt 80)). eauto.
Qed.

(** The three ways through [load]. *)
Lemma load_no_file meta d st :
  truthy (default SNone (meta !! "file")) = false ->
  load meta d st = (init (Some meta) None, st).
Proof. intros Ht. unfold load. by rewrite Ht. Qed.

Lemma load_missing_file meta d st fn :
  meta !! "file" = Some (SStr fn) ->
  fs st !! path_join d fn = None ->
  load meta d st = (init (Some meta) None, st).
Proof.
  intros Hfn Hnone. unfold load. rewrite Hfn. cbn [default from_option id].
  destruct (truthy (SStr fn)); cbn [negb]; [|done].
  run. unfold isfile. rewrite Hnone. by run.
Qed.

Lemma load_existing_file meta d st fn text L :
  meta !! "file" = Some (SStr fn) ->
  truthy (SStr fn) = true ->
  fs st !! path_join d fn = Some text ->
  json_loads text = Some L ->
  load meta d st = (init (Some meta) (Some L), st).
Proof.
  intros Hfn Ht Hfile Hjson. unfold load. rewrite Hfn.
  cbn [default from_option id]. rewrite Ht. cbn [negb].
  run. unfold isfile, read_json_file. rewrite Hfile. run.
  rewrite Hfile, Hjson. by run.
Qed.

(** C5.  Persisting a canonical list that is not empty and loading from the
    returned descriptor (alone or within a larger metadata dict) and the same
    directory gives a component with the same list, provided the JSON reader
    reads back what the JSON writer wrote for this list.  The load may run in
    any state that has the files [persist] left, whatever its component and
    its store are: the list comes back from the file. *)
Theorem persist_load_roundtrip (f d : string) (st : State) :
  entities (self st) <> [] ->
  json_loads (json_dumps (entities (self st))) = Some (entities (self st)) ->
  exists meta st1,
    persist f d st = (Ok meta, st1) /\
    forall meta' st2, meta ⊆ meta' -> fs st2 = fs st1 ->
      exists c, load meta' d st2 = (Ok c, st2) /\
                entities c = entities (self st).
Proof.
  intros Hne Hjson.
  eexists _, _. split; [by apply persist_nonempty|]. intros meta' st2 Hsub Hfs.
  assert (meta' !! "file" = Some (SStr (f +:+ ".json"))) as Hfile.
  { eapply lookup_weaken; [|done]. apply lookup_singleton_eq. }
  destruct (init_entities meta' (entities (self st))) as (c & Hi & Hc).
  exists c. split; [|done]. rewrite <- Hi.
  eapply load_existing_file; [done|apply append_json_truthy| |done].
  rewrite Hfs. apply lookup_insert_eq.
Qed.

(** C6.  Loading from a descriptor that names no file ([file] absent, [None]
    or otherwise false), or that names a file that is not on disk, returns a
    component with an empty canonical list and raises nothing. *)
Theorem load_without_file (meta : gmap string scalar) (d : string) (st : State) :
  truthy (default SNone (meta !! "file")) = false \/
  (exists fn, meta !! "file" = Some (SStr fn) /\ fs st !! path_join d fn = None) ->
  exists c, load meta d st = (Ok c, st) /\ entities c = [].
Proof.
  intros Hcase.
  destruct (init_no_entities meta) as (c & Hi & Hc).
  exists c. split; [|done]. rewrite <- Hi.
  destruct Hcase as [Ht|(fn & Hfn & Hnone)].
  - by apply load_no_file.
  - by eapply load_missing_file.
Qed.

(** * Further properties of the methods *)

(** ** Faults of the loop body *)

(** X1.  A record without a [value] field makes the loop body raise
    [KeyError]; nothing is changed. *)
Theorem fix_entity_missing_value (st : State) (l : positive)
    (d : gmap string val) :
  heap_of st !! l = Some (ODict d) ->
  d !! "value" = None ->
  fix_entity (Ref l) st = (Raise KeyError, st).
Proof.
  intros Hl Hx. unfold fix_entity.
  rewrite run_bind, (as_dict_run _ _ _ Hl). cbn beta iota. by rewrite Hx.
Qed.

(** X2.  An element of the sequence that is not a dict (a scalar, or a list
    object) makes the loop body raise [TypeError]; nothing is changed. *)
Theorem fix_entity_not_a_record (st : State) (x : val) :
  (exists c, x = Sc c) \/
  (exists l xs, x = Ref l /\ heap_of st !! l = Some (OList xs)) ->
  fix_entity x st = (Raise TypeError, st).
Proof.
  intros [[c ->]|(l & xs & -> & Hl)]; unfold fix_entity, as_dict; run; [done|].
  rewrite Hl. by run.
Qed.

(** X3.  When a correction applies to a record whose [processors] field is
    present and is not a list object, the loop body raises [AttributeError]
    after it has overwritten [value]: the record is left with the corrected
    value and the [processors] it had. *)
Theorem fix_entity_bad_processors (st : State) (l : positive)
    (d : gmap string val) (x v : val) (c : Z) (m : string) (s : Z) :
  heap_of st !! l = Some (ODict d) ->
  d !! "value" = Some x ->
  score_cutoff (self st) = SInt c ->
  best_match (py_str (heap_of st) x) (entities (self st)) = Some (m, s) ->
  c <= s ->
  m <> py_str (heap_of st) x ->
  d !! "processors" = Some v ->
  processors_of (heap_of st) d = None ->
  fix_entity (Ref l) st
  = (Raise AttributeError,
     mkState (self st)
       (<[l := ODict (<["value" := VStr m]> d)]> (heap_of st)) (fs st)).
Proof.
  intros Hl Hx Hc Hb Hs Hm Hv Hp. unfold fix_entity.
  rewrite run_bind, (as_dict_run _ _ _ Hl). cbn beta iota. rewrite Hx. run.
  rewrite Hc, (extractOne_some _ _ _ _ _ Hb Hs). run.
  destruct (decide (m <> py_str (heap_of st) x)) as [_|]; [|done]. run.
  set (d1 := <["value" := VStr m]> d).
  unfold add_processor_name.
  rewrite run_assoc, run_bind.
  rewrite (as_dict_run _ l d1) by apply lookup_insert_eq.
  cbn beta iota. unfold d1 at 1. rewrite lookup_insert_ne by done. rewrite Hv.
  run. unfold processors_of in Hp. rewrite Hv in Hp.
  destruct v as [c0|p]; run; [done|]. cbn [heap_of].
  destruct (decide (p = l)) as [->|Hpl].
  - rewrite lookup_insert_eq. by run.
  - rewrite lookup_insert_ne by done.
    destruct (heap_of st !! p) as [[ys|d0]|]; [done| |]; by run.
Qed.

(** ** What the loop body writes *)

Lemma extractWithoutOrder_elems q L cutoff : forall items,
  extractWithoutOrder q L cutoff = Ok items ->
  forall p, p ∈ items -> p.1 ∈ L.
Proof.
  induction L as [|a L IH]; intros items; cbn [extractWithoutOrder].
  - intros [= <-] p Hp. by apply elem_of_nil in Hp.
  - destruct (score_ge (scorer q a) cutoff) as [keep|e]; [|done].
    destruct (extractWithoutOrder q L cutoff) as [l|e]; [|done].
    intros [= <-] p Hp. destruct keep.
    + apply elem_of_cons in Hp as [->|Hp]; [left|right; by eapply IH].
    + right. by eapply IH.
Qed.

Lemma extractOne_elem q L cutoff m s :
  extractOne q L cutoff = Ok (Some (m, s)) -> m ∈ L.
Proof.
  unfold extractOne.
  destruct (extractWithoutOrder q L cutoff) as [items|e] eqn:E; [|done].
  destruct items as [|x xs]; [done|]. cbn [max_by_score]. intros [= Hmax].
  pose proof (fold_pick_in xs x) as Hin. rewrite Hmax in Hin.
  by apply (extractWithoutOrder_elems q L cutoff _ E (m, s)).
Qed.

(** The loop body on a record with a [value], by the outcome of the match. *)
Lemma fix_entity_run (st : State) l d x :
  heap_of st !! l = Some (ODict d) ->
  d !! "value" = Some x ->
  fix_entity (Ref l) st
  = match extractOne (py_str (heap_of st) x) (entities (self st))
            (score_cutoff (self st)) with
    | Raise e => (Raise e, st)
    | Ok None => (Ok tt, st)
    | Ok (Some (m, _)) =>
        if decide (m <> py_str (heap_of st) x) then
          (add_processor_name (Ref l) ≫= fun _ => ret tt)
            (mkState (self st)
               (<[l := ODict (<["value" := VStr m]> d)]> (heap_of st)) (fs st))
        else (Ok tt, st)
    end.
Proof.
  intros Hl Hx. unfold fix_entity.
  rewrite run_bind, (as_dict_run _ _ _ Hl). cbn beta iota. rewrite Hx. run.
  destruct (extractOne _ _ _) as [[[m s]|]|e]; run; try done.
  by destruct (decide (m <> py_str (heap_of st) x)); run.
Qed.

(** X4.  Whatever the loop body does on a record, returning or raising, the
    record's [value] afterwards is the one it had or one of the canonical
    strings: no other text is ever written. *)
Theorem fix_entity_value_canonical (st : State) (l : positive)
    (d : gmap string val) (x : val) :
  heap_of st !! l = Some (ODict d) ->
  d !! "value" = Some x ->
  exists d', heap_of (fix_entity (Ref l) st).2 !! l = Some (ODict d') /\
    (d' !! "value" = Some x \/
     exists m, m ∈ entities (self st) /\ d' !! "value" = Some (VStr m)).
Proof.
  intros Hl Hx. rewrite (fix_entity_run st l d x Hl Hx).
  destruct (extractOne _ _ _) as [[[m s]|]|e] eqn:E; try by eauto.
  destruct (decide (m <> py_str (heap_of st) x)); [|by eauto].
  set (st1 := mkState _ _ _).
  destruct (add_processor_name_effect (Ref l) st1) as (_ & _ & _ & Hdict).
  destruct (Hdict l (<["value" := VStr m]> d)) as (d' & Hd' & _ & Hk);
    [apply lookup_insert_eq|].
  rewrite run_bind.
  destruct (add_processor_name (Ref l) st1) as [[a|e'] st2]; cbn [snd] in *;
    exists d'; (split; [done|]); right; exists m;
    (split; [by eapply extractOne_elem|]);
    rewrite Hk by done; apply lookup_insert_eq.
Qed.

Lemma add_processor_name_frame (st : State) l d q o :
  heap_of st !! l = Some (ODict d) ->
  heap_of st !! q = Some o ->
  q <> l ->
  d !! "processors" <> Some (Ref q) ->
  heap_of (add_processor_name (Ref l) st).2 !! q = Some o.
Proof.
  intros Hl Hq Hql Hproc. unfold add_processor_name.
  rewrite run_bind, (as_dict_run _ _ _ Hl). cbn beta iota.
  destruct (d !! "processors") as [[c|p]|] eqn:Hd; run; try done.
  - destruct (heap_of st !! p) as [[ys|d0]|] eqn:Hp; run; try done.
    simpl. rewrite lookup_insert_ne; [done|congruence].
  - unfold alloc. run. simpl.
    rewrite lookup_insert_ne by done.
    rewrite lookup_insert_ne; [done|]. symmetry. by eapply fresh_lookup.
Qed.

(** X5.  The loop body on a record writes to that record and to the list
    object its [processors] field refers to, and to nothing else: every other
    object of the store is afterwards what it was, whatever the body returns
    or raises. *)
Theorem fix_entity_store_frame (st : State) (l q : positive)
    (d : gmap string val) (o : obj) :
  heap_of st !! l = Some (ODict d) ->
  heap_of st !! q = Some o ->
  q <> l ->
  d !! "processors" <> Some (Ref q) ->
  heap_of (fix_entity (Ref l) st).2 !! q = Some o.
Proof.
  intros Hl Hq Hql Hproc.
  destruct (d !! "value") as [x|] eqn:Hx.
  - rewrite (fix_entity_run st l d x Hl Hx).
    destruct (extractOne _ _ _) as [[[m s]|]|e]; try done.
    destruct (decide (m <> py_str (heap_of st) x)); [|done].
    set (st1 := mkState _ _ _).
    pose proof (add_processor_name_frame st1 l (<["value" := VStr m]> d) q o)
      as Hframe.
    rewrite run_bind.
    destruct (add_processor_name (Ref l) st1) as [[a|e'] st2]; cbn [snd] in *;
      apply Hframe; subst st1; cbn [heap_of];
      rewrite ?lookup_insert_eq, ?lookup_insert_ne by done; done.
  - unfold fix_entity.
    rewrite run_bind, (as_dict_run _ _ _ Hl). cbn beta iota. by rewrite Hx.
Qed.

(** ** Processing a well-formed message *)

Lemma record_ok_spec (h : gmap positive obj) (li : positive) (x : val) :
  record_ok h li x = true <->
  exists l d v, x = Ref l /\ h !! l = Some (ODict d) /\ d !! "value" = Some v /\
    (d !! "processors" = None \/
     exists p ys, d !! "processors" = Some (Ref p) /\
                  h !! p = Some (OList ys) /\ p <> li).
Proof.
  unfold record_ok. split.
  - destruct x as [c|l]; [done|].
    destruct (h !! l) as [[xs|d]|] eqn:Hl; try done.
    destruct (d !! "value") as [v|] eqn:Hv; [|done].
    destruct (d !! "processors") as [[c|p]|] eqn:Hp; try done.
    + destruct (h !! p) as [[ys|d0]|] eqn:Hq; try done.
      intros Hne%negb_true_iff%Pos.eqb_neq.
      exists l, d, v. repeat (split; [done|]). right. by exists p, ys.
    + intros _. exists l, d, v. repeat (split; [done|]). by left.
  - intros (l & d & v & -> & -> & -> & [->|(p & ys & -> & -> & Hne)]); [done|].
    by apply negb_true_iff, Pos.eqb_neq.
Qed.

Lemma extractOne_number_ok q L cutoff :
  is_number cutoff = true -> exists r, extractOne q L cutoff = Ok r.
Proof.
  intros Hn. unfold extractOne.
  assert (exists items, extractWithoutOrder q L cutoff = Ok items) as [items ->].
  { induction L as [|a L [items IH]]; cbn [extractWithoutOrder]; [eauto|].
    rewrite IH. destruct cutoff; try done; cbn [score_ge]; eauto. }
  eauto.
Qed.

(** The loop body on a well-formed record returns, leaves the sequence at
    [li] as it is, and leaves every well-formed element well-formed. *)
Lemma fix_entity_ok_record (st : State) (li : positive) (xs : list val) (x : val) :
  heap_of st !! li = Some (OList xs) ->
  is_number (score_cutoff (self st)) = true ->
  record_ok (heap_of st) li x = true ->
  exists st',
    fix_entity x st = (Ok tt, st') /\
    self st' = self st /\
    heap_of st' !! li = Some (OList xs) /\
    forall y, record_ok (heap_of st) li y = true ->
              record_ok (heap_of st') li y = true.
Proof.
  intros Hli Hnum (l & d & v & -> & Hl & Hv & Hproc)%record_ok_spec.
  rewrite (fix_entity_run st l d v Hl Hv).
  destruct (extractOne_number_ok (py_str (heap_of st) v) (entities (self st))
              _ Hnum) as [r ->].
  destruct r as [[m s]|]; [|by eauto].
  destruct (decide (m <> py_str (heap_of st) v)) as [Hm|]; [|by eauto].
  set (d1 := <["value" := VStr m]> d).
  set (st1 := mkState _ _ _).
  assert (heap_of st1 !! l = Some (ODict d1)) as Hl1 by apply lookup_insert_eq.
  assert (d1 !! "processors" = d !! "processors") as Hd1
    by by apply lookup_insert_ne.
  assert (d1 !! "value" = Some (VStr m)) as Hv1 by apply lookup_insert_eq.
  assert (l <> li) as Hlli by congruence.
  rewrite run_bind.
  destruct Hproc as [Hnone|(p & ys & Hp & Hys & Hpli)].
  - (* a new list object *)
    rewrite (add_processor_name_absent st1 l d1 Hl1) by congruence.
    cbv zeta. set (p := fresh (dom (heap_of st1))).
    assert (forall q o, heap_of st !! q = Some o -> q <> p) as Hfresh.
    { intros q o Hq Heq. apply (is_fresh (dom (heap_of st1))). fold p.
      rewrite <- Heq. apply elem_of_dom. unfold st1. cbn [heap_of].
      rewrite lookup_insert. case_decide; eauto. }
    eexists. split; [done|]. cbn [self heap_of]. split; [done|]. split.
    { rewrite lookup_insert_ne by done.
      rewrite lookup_insert_ne by (symmetry; by eapply Hfresh).
      unfold st1. cbn [heap_of]. by rewrite lookup_insert_ne. }
    intros y (l' & d' & v' & -> & Hl' & Hv' & Hproc')%record_ok_spec.
    apply record_ok_spec. destruct (decide (l' = l)) as [->|Hne].
    + exists l, (<["processors" := Ref p]> d1), (VStr m).
      split; [done|]. split; [apply lookup_insert_eq|].
      split; [by rewrite lookup_insert_ne|]. right.
      exists p, [VStr component_name]. split; [apply lookup_insert_eq|].
      split; [|symmetry; by eapply Hfresh].
      rewrite lookup_insert_ne by (by eapply Hfresh). apply lookup_insert_eq.
    + exists l', d', v'. split; [done|].
      assert (forall q o, heap_of st !! q = Some o -> q <> l ->
                (<[l := ODict (<["processors" := Ref p]> d1)]>
                   (<[p := OList [VStr component_name]]> (heap_of st1)))
                !! q = Some o) as Hsame.
      { intros q o Hq Hql. rewrite lookup_insert_ne by done.
        rewrite lookup_insert_ne by (symmetry; by eapply Hfresh).
        unfold st1. cbn [heap_of]. by rewrite lookup_insert_ne. }
      split; [by apply Hsame|]. split; [done|].
      destruct Hproc' as [?|(p' & ys' & Hp' & Hys' & Hne')]; [by left|].
      right. exists p', ys'. split; [done|]. split; [|done].
      apply Hsame; [done|congruence].
  - (* the list object the record has *)
    assert (p <> l) as Hpl by congruence.
    rewrite (add_processor_name_present st1 l d1 p ys Hl1) by
      (congruence || (unfold st1; cbn [heap_of]; by rewrite lookup_insert_ne)).
    eexists. split; [done|]. cbn [self heap_of]. split; [done|]. split.
    { rewrite lookup_insert_ne by done. unfold st1. cbn [heap_of].
      by rewrite lookup_insert_ne. }
    intros y (l' & d' & v' & -> & Hl' & Hv' & Hproc')%record_ok_spec.
    apply record_ok_spec.
    assert (forall q o, heap_of st !! q = Some o -> q <> l -> q <> p ->
              (<[p := OList (ys ++ [VStr component_name])]> (heap_of st1))
              !! q = Some o) as Hsame.
    { intros q o Hq Hql Hqp. rewrite lookup_insert_ne by done.
      unfold st1. cbn [heap_of]. by rewrite lookup_insert_ne. }
    assert (forall p' ys', heap_of st !! p' = Some (OList ys') ->
              exists zs,
                (<[p := OList (ys ++ [VStr component_name])]> (heap_of st1))
                !! p' = Some (OList zs)) as Hlist.
    { intros p' ys' Hys'. destruct (decide (p' = p)) as [->|Hne].
      - rewrite lookup_insert_eq. eauto.
      - exists ys'. apply Hsame; [done|congruence|done]. }
    destruct (decide (l' = l)) as [->|Hne].
    + exists l, d1, (VStr m). split; [done|]. split.
      { rewrite lookup_insert_ne by done. done. }
      split; [done|]. right. rewrite Hd1.
      exists p, (ys ++ [VStr component_name]). split; [done|].
      split; [apply lookup_insert_eq|done].
    + exists l', d', v'. split; [done|].
      split; [apply Hsame; [done|done|congruence]|]. split; [done|].
      destruct Hproc' as [?|(p' & ys' & Hp' & Hys' & Hne')]; [by left|].
      right. destruct (Hlist p' ys' Hys') as [zs Hzs]. eauto 10.
Qed.

Lemma for_loop_ok_records (li : positive) (xs : list val) :
  forall (fuel i : nat) (st : State),
    heap_of st !! li = Some (OList xs) ->
    is_number (score_cutoff (self st)) = true ->
    forallb (record_ok (heap_of st) li) xs = true ->
    (List.length xs - i < fuel)%nat ->
    exists st',
      for_loop fuel (Ref li) i fix_entity st = (Ok tt, st') /\
      heap_of st' !! li = Some (OList xs) /\
      forallb (record_ok (heap_of st') li) xs = true.
Proof.
  induction fuel as [|n IH]; intros i st Hli Hnum Hok Hfuel; [lia|].
  destruct (xs !! i) as [x|] eqn:Hx.
  - assert (record_ok (heap_of st) li x = true) as Hxok.
    { rewrite forallb_forall in Hok. apply Hok.
      apply list_elem_of_In. by eapply list_elem_of_lookup_2. }
    destruct (fix_entity_ok_record st li xs x Hli Hnum Hxok)
      as (st1 & Hrun & Hself & Hli1 & Hkeep).
    rewrite (for_loop_step n li i st st1 xs x Hli Hx Hrun).
    apply IH; [done|by rewrite Hself| |].
    + rewrite forallb_forall in *. intros y Hy. by apply Hkeep, Hok.
    + apply lookup_lt_Some in Hx. lia.
  - rewrite (for_loop_stop n li i st xs Hli Hx). eauto.
Qed.

(** X6.  On a message whose entity sequence is a list of well-formed records
    (dicts with a [value], whose [processors] is absent or a list object),
    with a numeric cutoff, [process] returns normally; the sequence holds the
    same records in the same order afterwards, they are still well-formed,
    and the message has them as its entities. *)
Theorem process_returns_on_well_formed (message : Message) (li : positive)
    (xs : list val) (st : State) :
  message_get message ENTITIES = Some (Ref li) ->
  heap_of st !! li = Some (OList xs) ->
  is_number (score_cutoff (self st)) = true ->
  forallb (record_ok (heap_of st) li) xs = true ->
  exists st',
    process message st = (Ok (message_set message ENTITIES (Ref li) true), st') /\
    heap_of st' !! li = Some (OList xs) /\
    forallb (record_ok (heap_of st') li) xs = true.
Proof.
  intros Hget Hli Hnum Hok. unfold process. rewrite Hget. run.
  unfold fix_entity_typo. run. cbn [iter_items]. rewrite Hli. run.
  destruct (for_loop_ok_records li xs (S (List.length xs)) 0%nat st Hli Hnum Hok)
    as (st' & Hrun & Hli' & Hok'); [lia|].
  exists st'. rewrite run_bind, Hrun. done.
Qed.

(** X7.  Whenever [process] returns, the message it returns differs from the
    one it was given in the entities property at most: that property is set
    (to the value it had, when it had one) and flagged as output, every other
    property is the one it was, and no flag is removed. *)
Theorem process_message_frame (message message' : Message) (st st' : State) :
  process message st = (Ok message', st') ->
  (forall k, k <> ENTITIES -> data message' !! k = data message !! k) /\
  is_Some (data message' !! ENTITIES) /\
  (forall v, data message !! ENTITIES = Some v ->
             data message' !! ENTITIES = Some v) /\
  output_properties message' = {[ENTITIES]} ∪ output_properties message.
Proof.
  unfold process, message_get.
  destruct (data message !! ENTITIES) as [v|] eqn:Hget.
  - run. rewrite run_bind.
    destruct (fix_entity_typo v st) as [[[]|e] st1]; [|done].
    intros [= <- <-]. cbn [message_set data output_properties].
    split_and!; [|by rewrite lookup_insert_eq| |done].
    + intros k Hk. by rewrite lookup_insert_ne.
    + intros v' [= ->]. apply lookup_insert_eq.
  - unfold alloc. run. rewrite run_bind.
    destruct (fix_entity_typo _ _) as [[[]|e] st1]; [|done].
    intros [= <- <-]. cbn [message_set data output_properties].
    split_and!; [|by rewrite lookup_insert_eq|done|done].
    intros k Hk. by rewrite lookup_insert_ne.
Qed.

(** X8.  On a message without an entities property [process] returns
    normally: the property is set to a new empty list and flagged as output,
    and nothing else of the store, the component or the files changes. *)
Theorem process_without_entities (message : Message) (st : State) :
  message_get message ENTITIES = None ->
  process message st
  = (let p := fresh (dom (heap_of st)) in
     (Ok (message_set message ENTITIES (Ref p) true),
      mkState (self st) (<[p := OList []]> (heap_of st)) (fs st))).
Proof.
  intros Hget. unfold process. rewrite Hget. unfold alloc. run.
  unfold fix_entity_typo. run. cbn [iter_items heap_of].
  rewrite lookup_insert_eq. run. cbv zeta.
  rewrite run_bind, (for_loop_stop 0 _ 0 _ []); [done| |done].
  apply lookup_insert_eq.
Qed.

(** X9.  The loop of [process] ends on every message and store, also when a
    record's [processors] field is the very sequence the loop runs over: the
    bound of the loop is never what stops it. *)
Theorem process_terminates (message : Message) (st : State) :
  (process message st).1 <> Raise NoFuel.
Proof.
  unfold process.
  destruct (message_get message ENTITIES) as [v|].
  - run. rewrite run_bind.
    pose proof (fix_entity_typo_fuel v st) as Hnf.
    destruct (fix_entity_typo v st) as [[[]|e] st1]; simpl in *; congruence.
  - unfold alloc. run. rewrite run_bind.
    set (st0 := mkState _ _ _).
    pose proof (fix_entity_typo_fuel (Ref (fresh (dom (heap_of st)))) st0) as Hnf.
    destruct (fix_entity_typo _ st0) as [[[]|e] st1]; simpl in *; congruence.
Qed.

(** X10.  A component with an empty canonical list corrects nothing: on a
    message whose entity sequence is a list of dicts with a [value],
    [process] returns normally and leaves the whole state as it was, whatever
    the cutoff and the other fields of the records. *)
Theorem process_empty_canonical_list (message : Message) (li : positive)
    (xs : list val) (st : State) :
  entities (self st) = [] ->
  message_get message ENTITIES = Some (Ref li) ->
  heap_of st !! li = Some (OList xs) ->
  (forall x, x ∈ xs ->
     exists l d, x = Ref l /\ heap_of st !! l = Some (ODict d) /\
                 is_Some (d !! "value")) ->
  process message st = (Ok (message_set message ENTITIES (Ref li) true), st).
Proof.
  intros Hnil Hget Hli Hrec.
  apply (process_no_change message li xs st Hget Hli).
  intros x (l & d & -> & Hl & [v Hv])%Hrec.
  rewrite (fix_entity_run st l d v Hl Hv), Hnil. done.
Qed.

(** ** A list object shared by two records *)

(** X11.  The name is appended in place: when two records share one list
    object as their [processors], a correction of the first shows in the
    second, whose dict is untouched and whose sequence now ends with the
    component's name. *)
Theorem fix_entity_shared_processors (st : State) (l1 l2 p : positive)
    (d1 d2 : gmap string val) (ys : list val) (x : val) (c : Z)
    (m : string) (s : Z) :
  l1 <> l2 ->
  heap_of st !! l1 = Some (ODict d1) ->
  heap_of st !! l2 = Some (ODict d2) ->
  d1 !! "processors" = Some (Ref p) ->
  d2 !! "processors" = Some (Ref p) ->
  heap_of st !! p = Some (OList ys) ->
  d1 !! "value" = Some x ->
  score_cutoff (self st) = SInt c ->
  best_match (py_str (heap_of st) x) (entities (self st)) = Some (m, s) ->
  c <= s ->
  m <> py_str (heap_of st) x ->
  exists st',
    fix_entity (Ref l1) st = (Ok tt, st') /\
    heap_of st' !! l2 = Some (ODict d2) /\
    processors_of (heap_of st') d2 = Some (ys ++ [VStr component_name]).
Proof.
  intros Hne Hl1 Hl2 Hp1 Hp2 Hp Hx Hc Hb Hs Hm.
  assert (p <> l1) as Hpl1 by congruence.
  assert (p <> l2) as Hpl2 by congruence.
  rewrite (fix_entity_run st l1 d1 x Hl1 Hx), Hc,
    (extractOne_some _ _ _ _ _ Hb Hs).
  destruct (decide (m <> py_str (heap_of st) x)) as [_|]; [|done].
  set (st1 := mkState _ _ _).
  rewrite run_bind.
  rewrite (add_processor_name_present st1 l1 (<["value" := VStr m]> d1) p ys).
  - eexists. split; [done|]. unfold st1. cbn [heap_of]. split.
    + rewrite lookup_insert_ne by done. by rewrite lookup_insert_ne.
    + unfold processors_of. rewrite Hp2. by rewrite lookup_insert_eq.
  - apply lookup_insert_eq.
  - by rewrite lookup_insert_ne.
  - unfold st1. cbn [heap_of]. by rewrite lookup_insert_ne.
Qed.

(** ** Persisting and loading *)

(** X12.  Whenever [persist] returns, it has written to one path at most:
    the descriptor it returns has [file] as its only key, holding [None] or
    the name [f.json]; the component and the store are as they were; and
    every file other than [f.json] joined to the directory is as it was.
    (Whether the write itself can fail is the host's matter and not stated
    here.) *)
Theorem persist_frame (f d : string) (st st' : State)
    (meta : gmap string scalar) :
  persist f d st = (Ok meta, st') ->
  dom meta = {[ "file" ]} /\
  (meta !! "file" = Some SNone \/
   meta !! "file" = Some (SStr (f +:+ ".json"))) /\
  self st' = self st /\ heap_of st' = heap_of st /\
  forall path, path <> path_join d (f +:+ ".json") ->
               fs st' !! path = fs st !! path.
Proof.
  destruct (entities (self st)) as [|e L] eqn:He.
  - rewrite (persist_empty f d st He). intros [= <- <-].
    split; [apply dom_singleton_L|]. split; [left; apply lookup_singleton_eq|].
    done.
  - rewrite (persist_nonempty f d st) by by rewrite He. intros [= <- <-].
    split; [apply dom_singleton_L|].
    split; [right; apply lookup_singleton_eq|].
    cbn [self heap_of fs]. split_and!; try done.
    intros path Hpath. by rewrite lookup_insert_ne.
Qed.

(** X13.  Persisting twice in a row is persisting once: the same descriptor
    and the same files. *)
Theorem persist_idempotent (f d : string) (st : State) :
  (persist f d ≫= fun _ => persist f d) st = persist f d st.
Proof.
  rewrite run_bind.
  destruct (entities (self st)) as [|e L] eqn:He.
  - by rewrite !(persist_empty f d st He).
  - rewrite (persist_nonempty f d st) by by rewrite He.
    rewrite persist_nonempty by (cbn [self]; by rewrite He).
    cbn [self heap_of fs]. by rewrite insert_insert_eq.
Qed.

(** X14.  [load] only reads: whatever it returns or raises, the state is the
    one it was given.  When it returns, the cutoff of the new component is
    the [score_cutoff] of [meta], or 80 when [meta] has none, and its
    canonical list is empty or what the JSON reader gave for the file that
    [meta] names. *)
Theorem load_reads_only (meta : gmap string scalar) (d : string) (st : State) :
  (load meta d st).2 = st /\
  forall c, (load meta d st).1 = Ok c ->
    score_cutoff c = default (SInt 80) (meta !! "score_cutoff") /\
    (entities c = [] \/
     exists fn text, meta !! "file" = Some (SStr fn) /\
                     fs st !! path_join d fn = Some text /\
                     json_loads text = Some (entities c)).
Proof.
  assert (forall ents c, init (Some meta) ents = Ok c ->
            score_cutoff c = default (SInt 80) (meta !! "score_cutoff") /\
            entities c = default [] ents) as Hinit.
  { intros ents c. unfold init.
    change (defaults !! "score_cutoff") with (Some (SInt 80)).
    intros [= <-]. split; [done|]. by destruct ents as [[|]|]. }
  unfold load.
  destruct (truthy (default SNone (meta !! "file"))) eqn:Ht; cbn [negb].
  - destruct (meta !! "file") as [[| | |fn]|] eqn:Hfile; try done.
    cbn [default from_option id]. run. unfold isfile, read_json_file.
    destruct (fs st !! path_join d fn) as [text|] eqn:Hf; run.
    + rewrite Hf. destruct (json_loads text) as [L|] eqn:Hj; run; [|done].
      split; [done|]. intros c Hc. unfold lift in Hc. cbn [fst] in Hc.
      destruct (Hinit _ _ Hc) as [Hcut Hent].
      split; [done|]. right. exists fn, text. by rewrite Hent.
    + split; [done|]. intros c Hc. unfold lift in Hc. cbn [fst] in Hc.
      destruct (Hinit _ _ Hc) as [Hcut Hent].
      split; [done|]. by left.
  - split; [done|]. intros c Hc. unfold lift in Hc. cbn [fst] in Hc.
      destruct (Hinit _ _ Hc) as [Hcut Hent].
    split; [done|]. by left.
Qed.

(** X15.  A file that is there and that the JSON reader rejects makes [load]
    raise: the fault is not turned into an empty canonical list. *)
Theorem load_malformed_file (meta : gmap string scalar) (d fn text : string)
    (st : State) :
  meta !! "file" = Some (SStr fn) ->
  fn <> "" ->
  fs st !! path_join d fn = Some text ->
  json_loads text = None ->
  load meta d st = (Raise FileIOException, st).
Proof.
  intros Hfile Hfn Hf Hj. unfold load. rewrite Hfile.
  cbn [default from_option id truthy].
  destruct (String.eqb_spec fn ""); [done|]. cbn [negb].
  run. unfold isfile, read_json_file. rewrite Hf. run.
  rewrite Hf, Hj. by run.
Qed.

(** X16.  With an empty canonical list, [persist] and then [load] from the
    returned descriptor write no file and give a component with an empty
    list and the default cutoff 80, whatever the cutoff was: the descriptor
    carries the file name only. *)
Theorem persist_load_empty (f d : string) (st : State) :
  entities (self st) = [] ->
  exists meta c,
    persist f d st = (Ok meta, st) /\
    load meta d st = (Ok c, st) /\
    entities c = [] /\ score_cutoff c = SInt 80.
Proof.
  intros He. exists {[ "file" := SNone ]}, (mkFixer [] (SInt 80)).
  split; [by apply persist_empty|]. split; [|done].
  by rewrite load_no_file.
Qed.

(** X17.  Train, persist, load: after training on a corpus and persisting,
    loading from the returned descriptor and the same directory gives a
    component whose canonical list is the keys of the synonym mapping, in
    order, also when there are none, provided the JSON reader reads back
    what the JSON writer wrote for these keys.  The load may run in any
    state that has the files [persist] left, whatever its component and its
    store are. *)
Theorem train_persist_load (training_data : TrainingData) (f d : string)
    (st : State) :
  let keys := map fst (entity_synonyms training_data) in
  json_loads (json_dumps keys) = Some keys ->
  exists meta st1,
    (train training_data ≫= fun _ => persist f d) st = (Ok meta, st1) /\
    forall st2, fs st2 = fs st1 ->
      exists c, load meta d st2 = (Ok c, st2) /\ entities c = keys.
Proof.
  intros keys Hjson. unfold train. run.
  set (st0 := mkState _ _ _).
  assert (entities (self st0) = keys) as Hkeys by done.
  destruct keys as [|k ks] eqn:Hk.
  - rewrite (persist_empty f d st0 Hkeys).
    destruct (init_no_entities {[ "file" := SNone ]}) as (c & Hi & Hc).
    exists {[ "file" := SNone ]}, st0. split; [done|]. intros st2 _.
    exists c. split; [|done]. rewrite <- Hi. by apply load_no_file.
  - rewrite (persist_nonempty f d st0) by by rewrite Hkeys.
    destruct (init_entities {[ "file" := SStr (f +:+ ".json") ]} (k :: ks))
      as (c & Hi & Hc).
    eexists _, _. split; [done|]. intros st2 Hfs.
    exists c. split; [|done]. rewrite <- Hi.
    eapply load_existing_file;
      [apply lookup_singleton_eq | apply append_json_truthy
      | rewrite Hfs; apply lookup_insert_eq | by rewrite Hkeys].
Qed.

(** ** A correction, through the loop of [process] *)

(** The [processors] field of a record after the loop body ran on it: the
    one it had, or a list object that did not exist when it had none. *)
Lemma fix_entity_processors_field (st : State) l d :
  heap_of st !! l = Some (ODict d) ->
  exists d1,
    heap_of (fix_entity (Ref l) st).2 !! l = Some (ODict d1) /\
    (d1 !! "processors" = d !! "processors" \/
     (d !! "processors" = None /\
      exists pf, d1 !! "processors" = Some (Ref pf) /\ heap_of st !! pf = None)).
Proof.
  intros Hl. destruct (d !! "value") as [x|] eqn:Hx.
  2:{ unfold fix_entity.
      rewrite run_bind, (as_dict_run _ _ _ Hl). cbn beta iota. rewrite Hx.
      exists d. by split; [|left]. }
  rewrite (fix_entity_run st l d x Hl Hx).
  destruct (extractOne _ _ _) as [[[m s]|]|e]; try (exists d; by split; [|left]).
  destruct (decide (m <> py_str (heap_of st) x)); [|exists d; by split; [|left]].
  set (d1 := <["value" := VStr m]> d). set (st1 := mkState _ _ _).
  assert (heap_of st1 !! l = Some (ODict d1)) as Hl1 by apply lookup_insert_eq.
  assert (d1 !! "processors" = d !! "processors") as Hd1
    by by apply lookup_insert_ne.
  rewrite run_bind. unfold add_processor_name.
  rewrite run_bind, (as_dict_run _ _ _ Hl1). cbn beta iota. rewrite Hd1.
  destruct (d !! "processors") as [[c|p]|] eqn:Hp; run.
  - exists d1. by split; [|left; congruence].
  - destruct (heap_of st1 !! p) as [[ys|d0]|] eqn:Hq; run;
      try (exists d1; by split; [|left; congruence]).
    exists d1. split; [|left; congruence]. simpl.
    rewrite lookup_insert_ne by congruence. done.
  - unfold alloc. run. simpl. eexists. split; [apply lookup_insert_eq|].
    right. split; [done|]. eexists. split; [apply lookup_insert_eq|].
    pose proof (is_fresh (dom (heap_of st1))) as Hfresh.
    apply not_elem_of_dom in Hfresh. unfold st1 in Hfresh at 2.
    cbn [heap_of] in Hfresh.
    destruct (decide (fresh (dom (heap_of st1)) = l)) as [Heq|Hne].
    + rewrite Heq, lookup_insert_eq in Hfresh. done.
    + by rewrite lookup_insert_ne in Hfresh.
Qed.

(** Every object other than the record and the list its [processors] refers
    to is what it was after the loop body ran on the record. *)
Lemma fix_entity_other_objects (st : State) l q d o :
  heap_of st !! l = Some (ODict d) ->
  heap_of st !! q = Some o ->
  q <> l ->
  d !! "processors" <> Some (Ref q) ->
  heap_of (fix_entity (Ref l) st).2 !! q = Some o.
Proof.
  intros Hl Hq Hql Hproc.
  destruct (d !! "value") as [x|] eqn:Hx.
  - rewrite (fix_entity_run st l d x Hl Hx).
    destruct (extractOne _ _ _) as [[[m s]|]|e]; try done.
    destruct (decide (m <> py_str (heap_of st) x)); [|done].
    set (st1 := mkState _ _ _).
    pose proof (add_processor_name_frame st1 l (<["value" := VStr m]> d) q o)
      as Hframe.
    rewrite run_bind.
    destruct (add_processor_name (Ref l) st1) as [[a|e'] st2]; cbn [snd] in *;
      apply Hframe; subst st1; cbn [heap_of];
      rewrite ?lookup_insert_eq, ?lookup_insert_ne by done; done.
  - unfold fix_entity.
    rewrite run_bind, (as_dict_run _ _ _ Hl). cbn beta iota. by rewrite Hx.
Qed.

Lemma loop_inv_record_ok li xs l c0 st d y :
  loop_inv li xs l c0 st d -> y ∈ xs -> record_ok (heap_of st) li y = true.
Proof.
  intros (_ & Hok & _) Hy. rewrite forallb_forall in Hok.
  by apply Hok, list_elem_of_In.
Qed.

(** In the invariant, the list the record's [processors] refers to exists. *)
Lemma loop_inv_processors li xs l c0 st d p :
  loop_inv li xs l c0 st d ->
  d !! "processors" = Some (Ref p) ->
  exists ys, heap_of st !! p = Some (OList ys).
Proof.
  intros Hinv Hp.
  pose proof (loop_inv_record_ok _ _ _ _ _ _ (Ref l) Hinv) as Hlok.
  destruct Hinv as (_ & _ & _ & Hin & Hl & _).
  specialize (Hlok Hin).
  apply record_ok_spec in Hlok
    as (? & dl & ? & [= <-] & Hdl & _ & [Hn|(p0 & ys0 & Hp0 & Hys0 & _)]);
    assert (dl = d) as -> by congruence; [congruence|].
  exists ys0. congruence.
Qed.

(** The loop body on another record of the sequence keeps the invariant and
    leaves the record at [l] and its [processors] sequence as they are. *)
Lemma loop_inv_other (li : positive) (xs : list val) (l : positive)
    (c0 : EntityTypoFixer) (st : State) (d : gmap string val) (y : val) :
  is_number (score_cutoff c0) = true ->
  loop_inv li xs l c0 st d ->
  y ∈ xs -> y <> Ref l ->
  exists st1,
    fix_entity y st = (Ok tt, st1) /\
    loop_inv li xs l c0 st1 d /\
    processors_of (heap_of st1) d = processors_of (heap_of st) d.
Proof.
  intros Hnum Hinv Hy Hne.
  pose proof (loop_inv_record_ok _ _ _ _ _ _ y Hinv Hy) as Hyok.
  pose proof (fun p => loop_inv_processors _ _ _ _ _ _ p Hinv) as Hplist.
  pose proof (fun z => loop_inv_record_ok _ _ _ _ _ _ z Hinv) as Hallok.
  destruct Hinv as (Hli & Hok & Hself & Hin & Hl & Hown).
  destruct (fix_entity_ok_record st li xs y Hli) as (st1 & Hrun & Hs1 & Hli1 & Hkeep);
    [by rewrite Hself|done|].
  apply record_ok_spec in Hyok
    as (l' & d' & v' & -> & Hl' & Hv' & Hproc').
  assert (l' <> l) as Hll by congruence.
  pose proof (fix_entity_effect (Ref l') st) as (_ & _ & _ & Hdict).
  pose proof (fix_entity_processors_field st l' d' Hl') as Hfield.
  pose proof (fun q o => fix_entity_other_objects st l' q d' o Hl') as Hother.
  rewrite Hrun in Hdict, Hfield, Hother. cbn [snd] in *.
  assert (heap_of st1 !! l = Some (ODict d)) as Hl1.
  { destruct (Hdict l d Hl) as (d1 & Hd1 & Hsame & _).
    rewrite Hd1, Hsame; [done|congruence]. }
  exists st1. split; [done|]. split.
  - split; [done|]. split.
    { rewrite forallb_forall in *. intros z Hz. by apply Hkeep, Hok. }
    split; [congruence|]. split; [done|]. split; [done|].
    intros l2 d2 p Hin2 Hl2 Hd2 Hp.
    destruct (decide (l2 = l')) as [->|Hne2].
    + destruct Hfield as (d1 & Hd1 & [Hsame|(Hnone & pf & Hpf & Hfresh)]);
        assert (d2 = d1) as -> by congruence.
      * rewrite Hsame. by eapply Hown.
      * rewrite Hpf. intros [= ->]. destruct (Hplist p Hp) as [ys Hys].
        congruence.
    + pose proof (Hallok (Ref l2) Hin2) as Hl2ok.
      apply record_ok_spec in Hl2ok as (? & d0 & ? & [= <-] & Hd0 & _).
      destruct (Hdict l2 d0 Hd0) as (d3 & Hd3 & Hsame3 & _).
      assert (d2 = d0) as -> by (rewrite Hsame3 in Hd3; congruence).
      by eapply Hown.
  - unfold processors_of.
    destruct (d !! "processors") as [[c|p]|] eqn:Hp; try done.
    destruct (Hplist p eq_refl) as [ys Hys].
    rewrite (Hother p (OList ys) Hys), Hys; [done|congruence|].
    by eapply Hown.
Qed.

(** The loop body on the record itself corrects it and keeps the invariant,
    with the record's new dict. *)
Lemma loop_inv_target (li : positive) (xs : list val) (l : positive)
    (c0 : EntityTypoFixer) (st : State) (d : gmap string val)
    (x : val) (v : string) (c : Z) (m : string) (s : Z) :
  score_cutoff c0 = SInt c ->
  loop_inv li xs l c0 st d ->
  d !! "value" = Some x ->
  py_str (heap_of st) x = v ->
  best_match v (entities c0) = Some (m, s) ->
  c <= s -> m <> v ->
  exists st1 d1,
    fix_entity (Ref l) st = (Ok tt, st1) /\
    loop_inv li xs l c0 st1 d1 /\
    d1 !! "value" = Some (VStr m) /\
    processors_of (heap_of st1) d1
    = Some (default [] (processors_of (heap_of st) d) ++ [VStr component_name]).
Proof.
  intros Hc Hinv Hx Hv Hb Hs Hm.
  pose proof (loop_inv_record_ok _ _ _ _ _ _ (Ref l) Hinv) as Hlok.
  pose proof (fun z => loop_inv_record_ok _ _ _ _ _ _ z Hinv) as Hallok.
  destruct Hinv as (Hli & Hok & Hself & Hin & Hl & Hown).
  specialize (Hlok Hin).
  destruct (fix_entity_ok_record st li xs (Ref l) Hli)
    as (st1 & Hrun & Hs1 & Hli1 & Hkeep);
    [by rewrite Hself, Hc|done|].
  destruct (fix_entity_corrects st l d x c m s) as (st1' & d1 & Hrun' & Hl1 & Hv1 & Hp1);
    [done|done|by rewrite Hself|by rewrite Hv, Hself|done|by rewrite Hv| |].
  { apply record_ok_spec in Hlok
      as (? & dl & ? & [= <-] & Hdl & _ & [Hn|(p0 & ys0 & Hp0 & Hys0 & _)]);
      assert (dl = d) as -> by congruence; [by left|].
    right. unfold processors_of. rewrite Hp0, Hys0. eauto. }
  assert (st1' = st1) as -> by congruence.
  pose proof (fix_entity_effect (Ref l) st) as (_ & _ & _ & Hdict).
  pose proof (fix_entity_processors_field st l d Hl) as Hfield.
  rewrite Hrun in Hdict, Hfield. cbn [snd] in *.
  exists st1, d1. split; [done|]. split; [|done].
  split; [done|]. split.
  { rewrite forallb_forall in *. intros z Hz. by apply Hkeep, Hok. }
  split; [congruence|]. split; [done|]. split; [done|].
  intros l2 d2 p Hin2 Hl2 Hd2 Hp.
  pose proof (Hallok (Ref l2) Hin2) as Hl2ok.
  apply record_ok_spec in Hl2ok
    as (? & d0 & ? & [= <-] & Hd0 & _ & Hproc0).
  destruct (Hdict l2 d0 Hd0) as (d3 & Hd3 & Hsame3 & _).
  assert (d2 = d0) as -> by (rewrite Hsame3 in Hd3; congruence).
  destruct Hfield as (d1' & Hd1' & [Hsame|(Hnone & pf & Hpf & Hfresh)]);
    assert (d1' = d1) as -> by congruence.
  - eapply Hown; [done|done|done|congruence].
  - assert (pf = p) as -> by congruence.
    destruct Hproc0 as [->|(p0 & ys0 & -> & Hys0 & _)]; [done|].
    intros [= ->]. congruence.
Qed.

(** The loop over positions that do not hold the record keeps the invariant
    and the record. *)
Lemma for_loop_others (li : positive) (xs : list val) (l : positive)
    (c0 : EntityTypoFixer) (d : gmap string val) :
  is_number (score_cutoff c0) = true ->
  forall (fuel i0 : nat) (st : State),
    loop_inv li xs l c0 st d ->
    (forall j, (i0 <= j)%nat -> xs !! j <> Some (Ref l)) ->
    (List.length xs - i0 < fuel)%nat ->
    exists st',
      for_loop fuel (Ref li) i0 fix_entity st = (Ok tt, st') /\
      loop_inv li xs l c0 st' d /\
      processors_of (heap_of st') d = processors_of (heap_of st) d.
Proof.
  intros Hnum. induction fuel as [|n IH]; intros i0 st Hinv Hlater Hfuel; [lia|].
  pose proof Hinv as (Hli & _).
  destruct (xs !! i0) as [y|] eqn:Hy.
  - destruct (loop_inv_other li xs l c0 st d y Hnum Hinv)
      as (st1 & Hrun & Hinv1 & Hp1).
    { by eapply list_elem_of_lookup_2. }
    { intros ->. by eapply (Hlater i0). }
    rewrite (for_loop_step n li i0 st st1 xs y Hli Hy Hrun).
    destruct (IH (S i0) st1 Hinv1) as (st' & Hloop & Hinv' & Hp').
    { intros j Hj. apply Hlater. lia. }
    { apply lookup_lt_Some in Hy. lia. }
    exists st'. split; [done|]. split; [done|]. congruence.
  - rewrite (for_loop_stop n li i0 st xs Hli Hy). eauto.
Qed.

(** The loop from a position at or before the record's: the record is
    reached, corrected, and kept to the end. *)
Lemma for_loop_corrects (li : positive) (xs : list val) (i : nat) (l : positive)
    (c0 : EntityTypoFixer) (d : gmap string val)
    (x : val) (v : string) (c : Z) (m : string) (s : Z) :
  score_cutoff c0 = SInt c ->
  xs !! i = Some (Ref l) ->
  (forall j, xs !! j = Some (Ref l) -> j = i) ->
  d !! "value" = Some x ->
  (forall h, py_str h x = v) ->
  best_match v (entities c0) = Some (m, s) ->
  c <= s -> m <> v ->
  forall (fuel i0 : nat) (st : State),
    loop_inv li xs l c0 st d ->
    (i0 <= i)%nat ->
    (List.length xs - i0 < fuel)%nat ->
    exists st' d',
      for_loop fuel (Ref li) i0 fix_entity st = (Ok tt, st') /\
      heap_of st' !! li = Some (OList xs) /\
      heap_of st' !! l = Some (ODict d') /\
      d' !! "value" = Some (VStr m) /\
      processors_of (heap_of st') d'
      = Some (default [] (processors_of (heap_of st) d) ++ [VStr component_name]).
Proof.
  intros Hc Hi Honce Hx Hv Hb Hs Hm.
  assert (is_number (score_cutoff c0) = true) as Hnum by by rewrite Hc.
  induction fuel as [|n IH]; intros i0 st Hinv Hle Hfuel; [lia|].
  pose proof Hinv as (Hli & _).
  destruct (decide (i0 = i)) as [->|Hne].
  - destruct (loop_inv_target li xs l c0 st d x v c m s)
      as (st1 & d1 & Hrun & Hinv1 & Hv1 & Hp1); try done.
    rewrite (for_loop_step n li i st st1 xs (Ref l) Hli Hi Hrun).
    destruct (for_loop_others li xs l c0 d1 Hnum n (S i) st1 Hinv1)
      as (st' & Hloop & Hinv' & Hp').
    { intros j Hj Hjl. apply Honce in Hjl. lia. }
    { apply lookup_lt_Some in Hi. lia. }
    destruct Hinv' as (Hli' & _ & _ & _ & Hl' & _).
    exists st', d1. split; [done|]. split; [done|]. split; [done|].
    split; [done|]. congruence.
  - assert (i0 < List.length xs)%nat as Hlt
      by (apply lookup_lt_Some in Hi; lia).
    destruct (lookup_lt_is_Some_2 xs i0 Hlt) as [y Hy].
    destruct (loop_inv_other li xs l c0 st d y Hnum Hinv)
      as (st1 & Hrun & Hinv1 & Hp1).
    { by eapply list_elem_of_lookup_2. }
    { intros ->. apply Honce in Hy. done. }
    rewrite (for_loop_step n li i0 st st1 xs y Hli Hy Hrun).
    destruct (IH (S i0) st1 Hinv1) as (st' & d' & Hloop & Hli' & Hl' & Hv' & Hp');
      [lia|lia|].
    exists st', d'. split; [done|]. split; [done|]. split; [done|].
    split; [done|]. by rewrite Hp', Hp1.
Qed.

(** C2.  On a message whose entity sequence is a list of well-formed records,
    a record of the sequence whose text [v] has a best match [m] that scores
    at or above the cutoff and differs from [v] is corrected by [process]:
    [process] returns normally, and afterwards the record's [value] is [m]
    and its [processors] sequence is the entries it had (none when the field
    was absent, in which case the sequence is new) followed by the
    component's name.  The record occurs once in the sequence and shares its
    [processors] list with no other record of it, as records that the host
    builds one by one do. *)
Theorem process_corrects (message : Message) (li : positive) (xs : list val)
    (i : nat) (l : positive) (d : gmap string val) (x : val) (v : string)
    (c : Z) (m : string) (s : Z) (st : State) :
  message_get message ENTITIES = Some (Ref li) ->
  heap_of st !! li = Some (OList xs) ->
  forallb (record_ok (heap_of st) li) xs = true ->
  score_cutoff (self st) = SInt c ->
  xs !! i = Some (Ref l) ->
  (forall j, xs !! j = Some (Ref l) -> j = i) ->
  heap_of st !! l = Some (ODict d) ->
  own_processors (heap_of st) xs l d ->
  d !! "value" = Some x ->
  (forall h, py_str h x = v) ->
  best_match v (entities (self st)) = Some (m, s) ->
  c <= s ->
  m <> v ->
  exists st' d',
    process message st
    = (Ok (message_set message ENTITIES (Ref li) true), st') /\
    heap_of st' !! li = Some (OList xs) /\
    heap_of st' !! l = Some (ODict d') /\
    d' !! "value" = Some (VStr m) /\
    processors_of (heap_of st') d'
    = Some (default [] (processors_of (heap_of st) d) ++ [VStr component_name]).
Proof.
  intros Hget Hli Hok Hc Hi Honce Hl Hown Hx Hv Hb Hs Hm.
  unfold process. rewrite Hget. run.
  unfold fix_entity_typo. run. cbn [iter_items]. rewrite Hli. run.
  destruct (for_loop_corrects li xs i l (self st) d x v c m s Hc Hi Honce Hx Hv
              Hb Hs Hm (S (List.length xs)) 0%nat st)
    as (st' & d' & Hloop & Hli' & Hl' & Hv' & Hp'); [|lia|lia|].
  { split; [done|]. split; [done|]. split; [done|].
    split; [by eapply list_elem_of_lookup_2|]. done. }
  exists st', d'. by rewrite run_bind, Hloop.
Qed.

End ComponentFacts.

(** * The example host *)

(** ** Its JSON reader reads back what its writer wrote *)

Lemma string_app_cons (x : ascii) (a b : string) :
  String x a +:+ b = String x (a +:+ b).
Proof. reflexivity. Qed.

Lemma string_app_assoc (a b c : string) : (a +:+ b) +:+ c = a +:+ (b +:+ c).
Proof.
  induction a as [|x a IH]; [done|].
  rewrite !string_app_cons. by f_equal.
Qed.

Lemma string_rev_append_twice (s acc acc' : string) :
  string_rev_append (string_rev_append s acc) acc'
  = string_rev_append acc (s +:+ acc').
Proof.
  revert acc acc'. induction s as [|x s IH]; intros acc acc'; [done|].
  cbn [string_rev_append]. by rewrite IH, string_app_cons.
Qed.

Lemma string_app_empty (s : string) : s +:+ "" = s.
Proof.
  induction s as [|x s IH]; [done|].
  rewrite string_app_cons. by f_equal.
Qed.

Lemma scan_json_escape (s acc rest : string) (items : list string) :
  scan_json (json_escape s +:+ rest) (InString acc) items
  = scan_json rest (InString (string_rev_append s acc)) items.
Proof.
  revert acc. induction s as [|a s IH]; intros acc; [done|].
  cbn [json_escape string_rev_append].
  destruct (Ascii.eqb a dquote) eqn:Hq; cbn [orb].
  - apply Ascii.eqb_eq in Hq as ->. cbn. apply IH.
  - destruct (Ascii.eqb a backslash) eqn:Hb.
    + apply Ascii.eqb_eq in Hb as ->. cbn. apply IH.
    + rewrite string_app_cons. cbn [scan_json]. rewrite Hq, Hb. apply IH.
Qed.

Lemma scan_json_quote (s rest : string) (state : scan) (items : list string) :
  state = AtOpen \/ state = AfterComma ->
  scan_json (json_quote s +:+ rest) state items
  = scan_json rest AfterString (s :: items).
Proof.
  intros Hst. unfold json_quote.
  assert (scan_json ((json_escape s +:+ String dquote "") +:+ rest)
            (InString "") items
          = scan_json rest AfterString (s :: items)) as Hbody.
  { rewrite string_app_assoc, scan_json_escape, string_app_cons.
    cbn [scan_json]. rewrite Ascii.eqb_refl, string_rev_append_twice.
    cbn [string_rev_append]. by rewrite string_app_empty. }
  destruct Hst as [-> | ->]; exact Hbody.
Qed.

Lemma scan_json_comma (rest : string) (items : list string) :
  scan_json (", " +:+ rest) AfterString items = scan_json rest AfterComma items.
Proof. reflexivity. Qed.

Lemma scan_json_items (l : list string) :
  forall (state : scan) (items : list string),
    l <> [] -> state = AtOpen \/ state = AfterComma ->
    scan_json (json_items l +:+ "]") state items = Some (rev items ++ l).
Proof.
  induction l as [|s l IH]; intros state items Hne Hst; [done|].
  destruct l as [|s' l].
  - cbn [json_items]. rewrite scan_json_quote by done. reflexivity.
  - change (json_items (s :: s' :: l))
      with (json_quote s +:+ ", " +:+ json_items (s' :: l)).
    rewrite !string_app_assoc. rewrite scan_json_quote by done.
    rewrite scan_json_comma, IH by (done || by right).
    cbn [rev]. by rewrite <- app_assoc.
Qed.

(** For every list of text, without condition on its characters. *)
Lemma simple_json_roundtrip (l : list string) :
  simple_json_loads (simple_json_dumps l) = Some l.
Proof.
  unfold simple_json_loads, simple_json_dumps.
  destruct l as [|s l]; [done|].
  change (scan_json (json_items (s :: l) +:+ "]") AtOpen [] = Some (s :: l)).
  by rewrite scan_json_items by (done || by left).
Qed.

(** So on the example host the round trip of [persist] and [load] holds for
    every canonical list that is not empty. *)
Lemma example_host_roundtrip (f d : string) (st : State) :
  entities (self st) <> [] ->
  exists meta st1 c,
    persist (H := example_host) f d st = (Ok meta, st1) /\
    load (H := example_host) meta d st1 = (Ok c, st1) /\
    entities c = entities (self st).
Proof.
  intros Hne.
  destruct (init_entities {[ "file" := SStr (f +:+ ".json") ]}
              (entities (self st))) as (c & Hi & Hc).
  eexists _, _, c. split; [by apply persist_nonempty|]. split; [|done].
  rewrite <- Hi.
  eapply (load_existing_file (H := example_host));
    [apply lookup_singleton_eq | apply append_json_truthy
    | apply lookup_insert_eq | apply simple_json_roundtrip].
Qed.

(** ** The example of the spec, run *)

(** Processing the example message corrects [Berln] to [Berlin] and records
    the component's name in a new [processors] sequence; [Tokyo] and [Munich]
    stay as they are. *)
Example process_example :
  let r := process (H := example_host) example_message example_state in
  let h := heap_of r.2 in
  r.1 = Ok (message_set example_message "entities" (Ref 4%positive) true) /\
  field_of h 1%positive "value" = Some (VStr "Berlin") /\
  field_of h 1%positive "processors" = Some (Ref 6%positive) /\
  h !! 6%positive = Some (OList [VStr "EntityTypoFixer"]) /\
  field_of h 2%positive "value" = Some (VStr "Tokyo") /\
  h !! 3%positive = Some (OList [VStr "Upstream"]) /\
  h !! 5%positive = example_heap !! 5%positive /\
  self r.2 = example_fixer.
Proof. vm_compute. repeat split. Qed.

(** ** Witnesses *)


Lemma fix_entity_corrects_witness :
  exists st' d',
    fix_entity (H := example_host) (Ref 1%positive) example_state = (Ok tt, st') /\
    heap_of st' !! 1%positive = Some (ODict d') /\
    d' !! "value" = Some (VStr "Berlin") /\
    processors_of (heap_of st') d' = Some [VStr "EntityTypoFixer"].
Proof.
  apply (fix_entity_corrects (H := example_host) example_state 1%positive
           berln_record (VStr "Berln") 80 "Berlin" 90).
  - vm_compute. reflexivity.
  - vm_compute. reflexivity.
  - reflexivity.
  - vm_compute. reflexivity.
  - lia.
  - discriminate.
  - left. vm_compute. reflexivity.
Defined.



Lemma persist_writes_or_skips_witness :
  persist (H := example_host) "component_1_EntityTypoFixer" "models" example_state
  = (Ok {[ "file" := SStr "component_1_EntityTypoFixer.json" ]},
     mkState example_fixer example_heap
       {[ "models/component_1_EntityTypoFixer.json"
          := simple_json_dumps ["Berlin"; "Munich"] ]}).
Proof.
  apply (persist_writes_or_skips (H := example_host)
           "component_1_EntityTypoFixer" "models" example_state).
  discriminate.
Defined.

Lemma persist_load_roundtrip_witness :
  exists meta st1,
    persist (H := example_host) "component_1_EntityTypoFixer" "models"
      example_state = (Ok meta, st1) /\
    forall meta' st2, meta ⊆ meta' -> fs st2 = fs st1 ->
      exists c, load (H := example_host) meta' "models" st2 = (Ok c, st2) /\
                entities c = ["Berlin"; "Munich"].
Proof.
  apply (persist_load_roundtrip (H := example_host)
           "component_1_EntityTypoFixer" "models" example_state).
  - discriminate.
  - vm_compute. reflexivity.
Defined.

Lemma load_without_file_witness :
  exists c,
    load (H := example_host) {[ "file" := SNone; "score_cutoff" := SInt 70 ]}
      "models" example_state = (Ok c, example_state) /\
    entities c = [].
Proof.
  apply (load_without_file (H := example_host)
           {[ "file" := SNone; "score_cutoff" := SInt 70 ]} "models" example_state).
  left. vm_compute. reflexivity.
Defined.

(** ** Witnesses of the further properties *)

Lemma fix_entity_missing_value_witness :
  fix_entity (H := example_host) (Ref 1%positive) faulty_state
  = (Raise KeyError, faulty_state).
Proof.
  apply (fix_entity_missing_value (H := example_host) faulty_state 1%positive
           {[ "entity" := VStr "city" ]}).
  - vm_compute. reflexivity.
  - vm_compute. reflexivity.
Defined.

Lemma fix_entity_not_a_record_witness :
  fix_entity (H := example_host) (Ref 2%positive) faulty_state
  = (Raise TypeError, faulty_state).
Proof.
  apply (fix_entity_not_a_record (H := example_host) faulty_state (Ref 2%positive)).
  right. exists 2%positive, []. split; [reflexivity|]. vm_compute. reflexivity.
Defined.

Lemma fix_entity_bad_processors_witness :
  fix_entity (H := example_host) (Ref 3%positive) faulty_state
  = (Raise AttributeError,
     mkState example_fixer
       (<[3%positive := ODict {[ "value" := VStr "Berlin";
                                 "processors" := Sc SNone ]}]> faulty_heap) ∅).
Proof.
  assert (<["value" := VStr "Berlin"]>
            ({[ "value" := VStr "Berln"; "processors" := Sc SNone ]}
             : gmap string val)
          = {[ "value" := VStr "Berlin"; "processors" := Sc SNone ]}) as <-
    by (vm_compute; reflexivity).
  apply (fix_entity_bad_processors (H := example_host) faulty_state 3%positive
           {[ "value" := VStr "Berln"; "processors" := Sc SNone ]}
           (VStr "Berln") (Sc SNone) 80 "Berlin" 90).
  - vm_compute. reflexivity.
  - vm_compute. reflexivity.
  - reflexivity.
  - vm_compute. reflexivity.
  - lia.
  - discriminate.
  - vm_compute. reflexivity.
  - vm_compute. reflexivity.
Defined.

Lemma fix_entity_value_canonical_witness :
  exists d',
    heap_of (fix_entity (H := example_host) (Ref 1%positive) example_state).2
      !! 1%positive = Some (ODict d') /\
    (d' !! "value" = Some (VStr "Berln") \/
     exists m, m ∈ ["Berlin"; "Munich"] /\ d' !! "value" = Some (VStr m)).
Proof.
  apply (fix_entity_value_canonical (H := example_host) example_state 1%positive
           berln_record (VStr "Berln")).
  - vm_compute. reflexivity.
  - vm_compute. reflexivity.
Defined.

Lemma fix_entity_store_frame_witness :
  heap_of (fix_entity (H := example_host) (Ref 1%positive) example_state).2
    !! 2%positive = Some (ODict tokyo_record).
Proof.
  apply (fix_entity_store_frame (H := example_host) example_state
           1%positive 2%positive berln_record (ODict tokyo_record)).
  - vm_compute. reflexivity.
  - vm_compute. reflexivity.
  - discriminate.
  - vm_compute. discriminate.
Defined.

Lemma process_returns_on_well_formed_witness :
  exists st',
    process (H := example_host) example_message example_state
    = (Ok (message_set example_message "entities" (Ref 4%positive) true), st') /\
    heap_of st' !! 4%positive
    = Some (OList [Ref 1%positive; Ref 2%positive; Ref 5%positive]) /\
    forallb (record_ok (heap_of st') 4%positive)
      [Ref 1%positive; Ref 2%positive; Ref 5%positive] = true.
Proof.
  apply (process_returns_on_well_formed (H := example_host) example_message
           4%positive [Ref 1%positive; Ref 2%positive; Ref 5%positive]
           example_state).
  - vm_compute. reflexivity.
  - vm_compute. reflexivity.
  - reflexivity.
  - vm_compute. reflexivity.
Defined.

Lemma process_message_frame_witness :
  (forall k, k <> "entities" ->
     data (message_set example_message "entities" (Ref 4%positive) true) !! k
     = data example_message !! k) /\
  is_Some (data (message_set example_message "entities" (Ref 4%positive) true)
             !! "entities") /\
  (forall v, data example_message !! "entities" = Some v ->
     data (message_set example_message "entities" (Ref 4%positive) true)
       !! "entities" = Some v) /\
  output_properties (message_set example_message "entities" (Ref 4%positive) true)
  = {[ "entities" ]} ∪ output_properties example_message.
Proof.
  apply (process_message_frame (H := example_host) example_message
           (message_set example_message "entities" (Ref 4%positive) true)
           example_state
           (process (H := example_host) example_message example_state).2).
  vm_compute. reflexivity.
Defined.

Lemma process_without_entities_witness :
  process (H := example_host) bare_message example_state
  = (Ok (message_set bare_message "entities" (Ref 6%positive) true),
     mkState example_fixer (<[6%positive := OList []]> example_heap) ∅).
Proof.
  apply (process_without_entities (H := example_host) bare_message example_state).
  vm_compute. reflexivity.
Defined.

Lemma process_empty_canonical_list_witness :
  process (H := example_host) example_message untrained_state
  = (Ok (message_set example_message "entities" (Ref 4%positive) true),
     untrained_state).
Proof.
  apply (process_empty_canonical_list (H := example_host) example_message
           4%positive [Ref 1%positive; Ref 2%positive; Ref 5%positive]
           untrained_state).
  - reflexivity.
  - vm_compute. reflexivity.
  - vm_compute. reflexivity.
  - intros x Hx. apply list_elem_of_In in Hx. simpl in Hx.
    destruct Hx as [<-|[<-|[<-|[]]]].
    + exists 1%positive, berln_record. split; [reflexivity|].
      split; [vm_compute; reflexivity|].
      exists (VStr "Berln"). vm_compute. reflexivity.
    + exists 2%positive, tokyo_record. split; [reflexivity|].
      split; [vm_compute; reflexivity|].
      exists (VStr "Tokyo"). vm_compute. reflexivity.
    + exists 5%positive, munich_record. split; [reflexivity|].
      split; [vm_compute; reflexivity|].
      exists (VStr "Munich"). vm_compute. reflexivity.
Defined.

Lemma fix_entity_shared_processors_witness :
  exists st',
    fix_entity (H := example_host) (Ref 4%positive) faulty_state = (Ok tt, st') /\
    heap_of st' !! 5%positive
    = Some (ODict {[ "value" := VStr "Munich"; "processors" := Ref 6%positive ]}) /\
    processors_of (heap_of st')
      {[ "value" := VStr "Munich"; "processors" := Ref 6%positive ]}
    = Some [VStr "Upstream"; VStr "EntityTypoFixer"].
Proof.
  apply (fix_entity_shared_processors (H := example_host) faulty_state
           4%positive 5%positive 6%positive
           {[ "value" := VStr "Berln"; "processors" := Ref 6%positive ]}
           {[ "value" := VStr "Munich"; "processors" := Ref 6%positive ]}
           [VStr "Upstream"] (VStr "Berln") 80 "Berlin" 90).
  - discriminate.
  - vm_compute. reflexivity.
  - vm_compute. reflexivity.
  - vm_compute. reflexivity.
  - vm_compute. reflexivity.
  - vm_compute. reflexivity.
  - vm_compute. reflexivity.
  - reflexivity.
  - vm_compute. reflexivity.
  - lia.
  - discriminate.
Defined.

Lemma load_malformed_file_witness :
  load (H := example_host) {[ "file" := SStr "component_1.json" ]} "models"
    broken_file_state
  = (Raise FileIOException, broken_file_state).
Proof.
  apply (load_malformed_file (H := example_host)
           {[ "file" := SStr "component_1.json" ]} "models" "component_1.json"
           "Berlin, Munich" broken_file_state).
  - vm_compute. reflexivity.
  - discriminate.
  - vm_compute. reflexivity.
  - vm_compute. reflexivity.
Defined.

Lemma persist_load_empty_witness :
  exists meta c,
    persist (H := example_host) "component_1" "models" untrained_state
    = (Ok meta, untrained_state) /\
    load (H := example_host) meta "models" untrained_state
    = (Ok c, untrained_state) /\
    entities c = [] /\ score_cutoff c = SInt 80.
Proof.
  apply (persist_load_empty (H := example_host) "component_1" "models"
           untrained_state).
  reflexivity.
Defined.

Lemma train_persist_load_witness :
  exists meta st1,
    (train example_corpus
       ≫= fun _ => persist (H := example_host) "component_1" "models")
      example_state = (Ok meta, st1) /\
    forall st2, fs st2 = fs st1 ->
      exists c, load (H := example_host) meta "models" st2 = (Ok c, st2) /\
                entities c = ["NYC"; "Big Apple"].
Proof.
  apply (train_persist_load (H := example_host) example_corpus "component_1"
           "models" example_state).
  vm_compute. reflexivity.
Defined.

Lemma persist_frame_witness :
  dom ({[ "file" := SStr "component_1.json" ]} : gmap string scalar)
  = {[ "file" ]} /\
  (({[ "file" := SStr "component_1.json" ]} : gmap string scalar) !! "file"
   = Some SNone \/
   ({[ "file" := SStr "component_1.json" ]} : gmap string scalar) !! "file"
   = Some (SStr "component_1.json")) /\
  self (persist (H := example_host) "component_1" "models" broken_file_state).2
  = example_fixer /\
  heap_of (persist (H := example_host) "component_1" "models" broken_file_state).2
  = ∅ /\
  forall path, path <> "models/component_1.json" ->
    fs (persist (H := example_host) "component_1" "models" broken_file_state).2
      !! path
    = fs broken_file_state !! path.
Proof.
  apply (persist_frame (H := example_host) "component_1" "models"
           broken_file_state
           (persist (H := example_host) "component_1" "models" broken_file_state).2
           {[ "file" := SStr "component_1.json" ]}).
  vm_compute. reflexivity.
Defined.

Lemma process_corrects_witness :
  exists st' d',
    process (H := example_host) upstream_message upstream_state
    = (Ok (message_set upstream_message "entities" (Ref 3%positive) true), st') /\
    heap_of st' !! 3%positive = Some (OList [Ref 4%positive; Ref 1%positive]) /\
    heap_of st' !! 1%positive = Some (ODict d') /\
    d' !! "value" = Some (VStr "Munich") /\
    processors_of (heap_of st') d'
    = Some [VStr "Upstream"; VStr "EntityTypoFixer"].
Proof.
  apply (process_corrects (H := example_host) upstream_message 3%positive
           [Ref 4%positive; Ref 1%positive] 1 1%positive
           munic_record (VStr "Munic") "Munic" 80 "Munich" 90 upstream_state).
  - vm_compute. reflexivity.
  - vm_compute. reflexivity.
  - vm_compute. reflexivity.
  - reflexivity.
  - reflexivity.
  - intros [|[|[|j]]]; simpl; intros Hj; try reflexivity; discriminate.
  - vm_compute. reflexivity.
  - intros l' d' p Hin Hne Hl' Hp. vm_compute in Hp.
    injection Hp as <-. apply list_elem_of_In in Hin. simpl in Hin.
    destruct Hin as [Hin|[Hin|[]]]; injection Hin as <-; [|done].
    vm_compute in Hl'. injection Hl' as <-. vm_compute. discriminate.
  - vm_compute. reflexivity.
  - intros h. reflexivity.
  - vm_compute. reflexivity.
  - lia.
  - discriminate.
Defined.
